(** * aula20-ssr: the Express / Handlebars demo server of [src/server.ts]

    A shallow embedding of the server: the JavaScript values it handles,
    the two language operations its behaviour hinges on (the loose equality
    of the [equals] helper and [parseInt(..) || 3000] of the port), the
    error classes, the Express layer stack in registration order, and the
    dispatch of a request through that stack. *)

From Stdlib Require Import ZArith List String Ascii Bool Lia.
From Stdlib Require Import Floats.SpecFloat.
Import ListNotations.

Set Warnings "-register-all".

Local Open Scope string_scope.
Local Open Scope list_scope.

(** ** Numbers

    A JavaScript Number is an IEEE 754 binary64 value.  [spec_float] with
    precision 53 and maximal exponent 1024 is exactly that format (without
    NaN payloads, which JavaScript cannot observe either). *)

Module Num.

Definition prec : Z := 53.
Definition emax : Z := 1024.

Definition Number : Type := spec_float.

Definition nan : Number := S754_nan.
Definition pos_zero : Number := S754_zero false.

(** The Number value for a mathematical integer (round to nearest, ties to
    even; overflow gives an infinity). *)
Definition of_Z (z : Z) : Number := binary_normalize prec emax z 0 false.

(** The Number value for [m * 10^e] with [0 <= m], signed by [neg]: how a
    decimal literal such as [19.99] (m = 1999, e = -2) denotes a double.
    The quotient is rounded once, from the exact remainder. *)
Definition of_decimal (neg : bool) (m e : Z) : Number :=
  match m with
  | Z0 => S754_zero neg
  | Zneg _ => S754_nan
  | Zpos p =>
      if (0 <=? e)%Z
      then binary_round prec emax neg (Z.to_pos (Zpos p * 10 ^ e)) 0
      else
        let '(q, e', l) := SFdiv_core_binary prec emax (Zpos p) 0 (10 ^ (- e)) 0 in
        binary_round_aux prec emax neg q e' l
  end.

Definition eqb (a b : Number) : bool := SFeqb a b.

Definition is_nan (a : Number) : bool :=
  match a with S754_nan => true | _ => false end.

Definition is_zero (a : Number) : bool :=
  match a with S754_zero _ => true | _ => false end.

End Num.

Abbreviation Number := Num.Number.

(** ** Strings as the language reads them

    A [string] stands for a JavaScript string all of whose code units are
    below 256; each [ascii] is one code unit. *)

Module Lex.

Definition code (c : ascii) : nat := nat_of_ascii c.

(** WhiteSpace and LineTerminator code units below 256: TAB, LF, VT, FF, CR,
    SP and NBSP. *)
Definition is_white_space (c : ascii) : bool :=
  let n := code c in
  ((9 <=? n) && (n <=? 13) || (n =? 32) || (n =? 160))%nat.

Fixpoint trim_start (s : string) : string :=
  match s with
  | String c r => if is_white_space c then trim_start r else s
  | EmptyString => EmptyString
  end.

(** [trim_end] drops the trailing white space: a character is kept when it
    is not white space or when something is kept after it. *)
Fixpoint trim_end (s : string) : string :=
  match s with
  | EmptyString => EmptyString
  | String c r =>
      match trim_end r with
      | EmptyString => if is_white_space c then EmptyString else String c EmptyString
      | r' => String c r'
      end
  end.

Definition trim (s : string) : string := trim_end (trim_start s).

(** The value of a code unit as a digit: 0-9, then a-z and A-Z for 10-35. *)
Definition digit_value (c : ascii) : option Z :=
  let n := code c in
  if ((48 <=? n) && (n <=? 57))%nat then Some (Z.of_nat (n - 48))
  else if ((97 <=? n) && (n <=? 122))%nat then Some (Z.of_nat (n - 87))
  else if ((65 <=? n) && (n <=? 90))%nat then Some (Z.of_nat (n - 55))
  else None.

Definition radix_digit (R : Z) (c : ascii) : option Z :=
  match digit_value c with
  | Some d => if (d <? R)%Z then Some d else None
  | None => None
  end.

(** The longest prefix of radix-[R] digits, as digit values, and the rest. *)
Fixpoint span_digits (R : Z) (s : string) : list Z * string :=
  match s with
  | EmptyString => ([], EmptyString)
  | String c r =>
      match radix_digit R c with
      | Some d => let '(ds, rest) := span_digits R r in (d :: ds, rest)
      | None => ([], s)
      end
  end.

Definition digits_value (R : Z) (ds : list Z) : Z :=
  fold_left (fun acc d => (acc * R + d)%Z) ds 0%Z.

(** An optional leading sign: [true] for a minus sign. *)
Definition split_sign (s : string) : bool * string :=
  match s with
  | String "-" r => (true, r)
  | String "+" r => (false, r)
  | _ => (false, s)
  end.

End Lex.

(** ** [parseInt(string)] with no radix argument (ECMAScript 19.2.5) *)

Definition strip_hex_prefix (s : string) : Z * string :=
  match s with
  | String "0" (String "x" r) => (16%Z, r)
  | String "0" (String "X" r) => (16%Z, r)
  | _ => (10%Z, s)
  end.

Definition parseInt (input : string) : Number :=
  let '(neg, s1) := Lex.split_sign (Lex.trim_start input) in
  let '(R, s2) := strip_hex_prefix s1 in
  match fst (Lex.span_digits R s2) with
  | [] => Num.nan
  | ds =>
      let mathInt := Lex.digits_value R ds in
      if (mathInt =? 0)%Z then S754_zero neg
      else Num.of_Z (if neg then (- mathInt)%Z else mathInt)
  end.

(** ** Values

    Primitives, and arrays and objects as trees of their properties.  Symbol
    and BigInt values do not occur in this program and are not represented.
    An object carries the class it was constructed from and its data
    properties in insertion order. *)

Inductive Class :=
| ClsObject
| ClsError
| ClsAppError
| ClsAuthenticationError
| ClsRequiredFieldError
| ClsOther (name : string).

Inductive Primitive :=
| PUndefined
| PNull
| PBool (b : bool)
| PNum (n : Number)
| PStr (s : string).

Inductive JSValue :=
| JPrim (p : Primitive)
| JArray (elems : list JSValue)
| JObject (cls : Class) (props : list (string * JSValue)).

Abbreviation JUndefined := (JPrim PUndefined).
Abbreviation JNull := (JPrim PNull).
Abbreviation JBool b := (JPrim (PBool b)).
Abbreviation JNum n := (JPrim (PNum n)).
Abbreviation JStr s := (JPrim (PStr s)).

(** An object literal [{ k1: v1, ... }]. *)
Definition literal (props : list (string * JSValue)) : JSValue :=
  JObject ClsObject props.

Fixpoint lookup {A : Type} (k : string) (l : list (string * A)) : option A :=
  match l with
  | [] => None
  | (k', v) :: r => if String.eqb k k' then Some v else lookup k r
  end.

(** Assignment [o.k = v]: an existing property keeps its place. *)
Fixpoint assign {A : Type} (k : string) (v : A) (l : list (string * A))
  : list (string * A) :=
  match l with
  | [] => [(k, v)]
  | (k', v') :: r =>
      if String.eqb k k' then (k, v) :: r else (k', v') :: assign k v r
  end.

(** ToBoolean (ECMAScript 7.1.2). *)
Definition ToBoolean (v : JSValue) : bool :=
  match v with
  | JPrim PUndefined | JPrim PNull => false
  | JPrim (PBool b) => b
  | JPrim (PNum n) => negb (Num.is_nan n || Num.is_zero n)
  | JPrim (PStr s) => negb (String.eqb s "")
  | JArray _ | JObject _ _ => true
  end.

(** The operator [a || b] on already evaluated operands. *)
Definition js_or (a b : JSValue) : JSValue :=
  if ToBoolean a then a else b.

(** ** StringToNumber (ECMAScript 7.1.4.1.1)

    [StrWhiteSpace? StrNumericLiteral? StrWhiteSpace?]; anything else is
    NaN.  The exact decimal value is rounded to the nearest double. *)

Definition parse_exponent (s : string) : option Z :=
  match s with
  | EmptyString => Some 0%Z
  | String c r =>
      if (Ascii.eqb c "e" || Ascii.eqb c "E")%bool then
        let '(neg, r1) := Lex.split_sign r in
        match Lex.span_digits 10 r1 with
        | ([], _) => None
        | (ds, EmptyString) =>
            let x := Lex.digits_value 10 ds in
            Some (if neg then (- x)%Z else x)
        | (_, String _ _) => None
        end
      else None
  end.

Definition parse_unsigned_decimal (neg : bool) (s : string) : option Number :=
  if String.eqb s "Infinity" then Some (S754_infinity neg)
  else
    let '(ip, r1) := Lex.span_digits 10 s in
    let '(fp, r2) :=
      match r1 with
      | String "." r => Lex.span_digits 10 r
      | _ => ([], r1)
      end in
    match ip ++ fp with
    | [] => None
    | ds =>
        match parse_exponent r2 with
        | Some x =>
            Some (Num.of_decimal neg (Lex.digits_value 10 ds)
                                 (x - Z.of_nat (List.length fp)))
        | None => None
        end
    end.

Definition parse_non_decimal (s : string) : option Number :=
  let whole (R : Z) (r : string) :=
    match Lex.span_digits R r with
    | ([], _) => None
    | (ds, EmptyString) => Some (Num.of_Z (Lex.digits_value R ds))
    | (_, String _ _) => None
    end in
  match s with
  | String "0" (String c r) =>
      if (Ascii.eqb c "x" || Ascii.eqb c "X")%bool then whole 16%Z r
      else if (Ascii.eqb c "o" || Ascii.eqb c "O")%bool then whole 8%Z r
      else if (Ascii.eqb c "b" || Ascii.eqb c "B")%bool then whole 2%Z r
      else None
  | _ => None
  end.

Definition StringToNumber (s : string) : Number :=
  match Lex.trim s with
  | EmptyString => Num.pos_zero
  | t =>
      match parse_non_decimal t with
      | Some n => n
      | None =>
          let '(neg, u) := Lex.split_sign t in
          match parse_unsigned_decimal neg u with
          | Some n => n
          | None => Num.nan
          end
      end
  end.

Definition bool_to_number (b : bool) : Number :=
  if b then Num.of_Z 1 else Num.pos_zero.

(** ToNumber on primitives (ECMAScript 7.1.4). *)
Definition ToNumber (p : Primitive) : Number :=
  match p with
  | PUndefined => Num.nan
  | PNull => Num.pos_zero
  | PBool b => bool_to_number b
  | PNum n => n
  | PStr s => StringToNumber s
  end.

(** ** Loose equality, the [==] of the [equals] helper

    The operands of [==] are primitives or objects.  For [==] an object
    counts only through its identity and through the primitive that
    ToPrimitive (its [valueOf] / [toString] methods) yields for it, [None]
    when that conversion throws a TypeError. *)

Inductive Operand :=
| Val (p : Primitive)
| Ref (address : nat) (conv : option Primitive).

(** IsStrictlyEqual on two primitives of the same type. *)
Definition same_type_eqb (p q : Primitive) : option bool :=
  match p, q with
  | PUndefined, PUndefined => Some true
  | PNull, PNull => Some true
  | PBool a, PBool b => Some (Bool.eqb a b)
  | PNum a, PNum b => Some (Num.eqb a b)
  | PStr a, PStr b => Some (String.eqb a b)
  | _, _ => None
  end.

(** IsLooselyEqual (ECMAScript 7.2.14) on primitives, its recursive calls
    unfolded: a boolean operand is first turned into a number, a string
    compared with a number is turned into a number. *)
Definition loose_eq_prim (p q : Primitive) : bool :=
  match same_type_eqb p q with
  | Some r => r
  | None =>
      match p, q with
      | PNull, PUndefined | PUndefined, PNull => true
      | PUndefined, _ | PNull, _ | _, PUndefined | _, PNull => false
      | _, _ => Num.eqb (ToNumber p) (ToNumber q)
      end
  end.

(** A primitive against an object: [undefined] and [null] equal no object;
    otherwise the object is converted and the primitives are compared. *)
Definition prim_vs_object (p : Primitive) (conv : option Primitive)
  : option bool :=
  match p with
  | PUndefined | PNull => Some false
  | _ =>
      match conv with
      | Some q => Some (loose_eq_prim p q)
      | None => None
      end
  end.

Definition object_vs_prim (conv : option Primitive) (q : Primitive)
  : option bool :=
  match q with
  | PUndefined | PNull => Some false
  | _ =>
      match conv with
      | Some p => Some (loose_eq_prim p q)
      | None => None
      end
  end.

Definition loose_eq (x y : Operand) : option bool :=
  match x with
  | Val p =>
      match y with
      | Val q => Some (loose_eq_prim p q)
      | Ref _ conv => prim_vs_object p conv
      end
  | Ref a conv =>
      match y with
      | Val q => object_vs_prim conv q
      | Ref b _ => Some (Nat.eqb a b)
      end
  end.

(** [equals: (a, b) => a == b], registered as a Handlebars helper. *)
Definition equals (a b : Operand) : option bool := loose_eq a b.

(** The same relation told as the standard tells it: which pairs are equal
    after implicit type coercion. *)
Inductive SameType : Primitive -> Primitive -> Prop :=
| ST_undefined : SameType PUndefined PUndefined
| ST_null : SameType PNull PNull
| ST_bool a b : SameType (PBool a) (PBool b)
| ST_num a b : SameType (PNum a) (PNum b)
| ST_str a b : SameType (PStr a) (PStr b).

Inductive StrictlyEqual : Primitive -> Primitive -> Prop :=
| SE_undefined : StrictlyEqual PUndefined PUndefined
| SE_null : StrictlyEqual PNull PNull
| SE_bool b : StrictlyEqual (PBool b) (PBool b)
| SE_num a b : Num.eqb a b = true -> StrictlyEqual (PNum a) (PNum b)
| SE_str s : StrictlyEqual (PStr s) (PStr s).

Definition is_string_or_number (p : Primitive) : Prop :=
  match p with PNum _ | PStr _ => True | _ => False end.

Inductive CoercedEqual : Operand -> Operand -> Prop :=
| CE_same_type p q :
    SameType p q -> StrictlyEqual p q -> CoercedEqual (Val p) (Val q)
| CE_same_object a c c' :
    CoercedEqual (Ref a c) (Ref a c')
| CE_null_undefined :
    CoercedEqual (Val PNull) (Val PUndefined)
| CE_undefined_null :
    CoercedEqual (Val PUndefined) (Val PNull)
| CE_number_string n s :
    CoercedEqual (Val (PNum n)) (Val (PNum (StringToNumber s))) ->
    CoercedEqual (Val (PNum n)) (Val (PStr s))
| CE_string_number s n :
    CoercedEqual (Val (PNum (StringToNumber s))) (Val (PNum n)) ->
    CoercedEqual (Val (PStr s)) (Val (PNum n))
| CE_boolean_left b y :
    CoercedEqual (Val (PNum (bool_to_number b))) y ->
    CoercedEqual (Val (PBool b)) y
| CE_boolean_right x b :
    CoercedEqual x (Val (PNum (bool_to_number b))) ->
    CoercedEqual x (Val (PBool b))
| CE_primitive_object p a q :
    is_string_or_number p ->
    CoercedEqual (Val p) (Val q) ->
    CoercedEqual (Val p) (Ref a (Some q))
| CE_object_primitive a p q :
    is_string_or_number q ->
    CoercedEqual (Val p) (Val q) ->
    CoercedEqual (Ref a (Some p)) (Val q).

(** ** The error classes of [server.ts]

    [AppError extends Error] declares the field [code = 'unknown_error'];
    its two subclasses redeclare the field.  Construction runs the
    constructors from the base class down, each class assigning its own
    fields after its parent's, so the most derived initialiser wins. *)

Definition superclass (c : Class) : option Class :=
  match c with
  | ClsAuthenticationError | ClsRequiredFieldError => Some ClsAppError
  | ClsAppError => Some ClsError
  | ClsError => Some ClsObject
  | ClsObject => None
  | ClsOther _ => None
  end.

Definition class_eqb (a b : Class) : bool :=
  match a, b with
  | ClsObject, ClsObject | ClsError, ClsError | ClsAppError, ClsAppError
  | ClsAuthenticationError, ClsAuthenticationError
  | ClsRequiredFieldError, ClsRequiredFieldError => true
  | ClsOther n, ClsOther m => String.eqb n m
  | _, _ => false
  end.

(** The prototype chain of the classes declared here is at most four long.
    [AppError] is not exported, so no class from outside ([ClsOther])
    derives from it. *)
Fixpoint derives_from (fuel : nat) (c target : Class) : bool :=
  class_eqb c target ||
  match fuel, superclass c with
  | S fuel', Some parent => derives_from fuel' parent target
  | _, _ => false
  end.

(** [v instanceof target]. *)
Definition instanceof (v : JSValue) (target : Class) : bool :=
  match v with
  | JObject cls _ => derives_from 4 cls target
  | JArray _ => class_eqb target ClsObject
  | JPrim _ => false
  end.

Definition Error_constructor (message : string) (this : list (string * JSValue))
  : list (string * JSValue) :=
  assign "message" (JStr message) this.

Definition AppError_fields (this : list (string * JSValue)) :=
  assign "code" (JStr "unknown_error") this.

Definition AuthenticationError_fields (this : list (string * JSValue)) :=
  assign "code" (JStr "auth_error") this.

Definition RequiredFieldError_fields (this : list (string * JSValue)) :=
  assign "code" (JStr "required_field_error") this.

Definition new_AppError (message : string) : JSValue :=
  JObject ClsAppError (AppError_fields (Error_constructor message [])).

Definition new_AuthenticationError (message : string) : JSValue :=
  JObject ClsAuthenticationError
    (AuthenticationError_fields (AppError_fields (Error_constructor message []))).

Definition new_RequiredFieldError (message : string) : JSValue :=
  JObject ClsRequiredFieldError
    (RequiredFieldError_fields (AppError_fields (Error_constructor message []))).

(** The read [v.code].  Reading a property of [undefined] or [null] throws
    a TypeError ([None]); no primitive wrapper and no array has a [code]. *)
Definition get_code (v : JSValue) : option JSValue :=
  match v with
  | JPrim PUndefined | JPrim PNull => None
  | JPrim _ | JArray _ => Some JUndefined
  | JObject _ props =>
      match lookup "code" props with
      | Some c => Some c
      | None => Some JUndefined
      end
  end.

(** ** Requests, responses and handlers *)

Inductive Method := GET | HEAD | POST | PUT | DELETE | PATCH | OPTIONS.

Record Request := {
  req_method : Method;
  req_path : string;                      (* the URL path, query removed *)
  req_query : string;
  req_headers : list (string * string);
  req_body : string
}.

(** What a handler receives as [req]: the request and the [req.params] the
    router captured for the matching route. *)
Record ExpressRequest := {
  http : Request;
  params : list (string * string)
}.

(** [req.params.name]. *)
Definition param (req : ExpressRequest) (name : string) : JSValue :=
  match lookup name (params req) with
  | Some s => JStr s
  | None => JUndefined
  end.

(** A response is a status and either a call of the view engine, kept as
    the view name and the options object handed to it, or a payload sent by
    a collaborator (static files).  A [View] body is the render call and no
    more: what the view engine makes of it, and what Express then sends, is
    the subject of [serve] further down. *)
Inductive Body :=
| View (name : string) (options : list (string * JSValue))
| Payload (data : string).

Record Response := {
  status : nat;
  body : Body
}.

(** [console.error(err.stack)]: the log records whose stack was printed. *)
Inductive LogEntry :=
| ConsoleErrorStack (err : JSValue).

Inductive HandlerResult :=
| Send (log : list LogEntry) (r : Response)
| Throw (v : JSValue)
| Next.

(** The call [res.render(view, options)] on a fresh response (status 200),
    and after [res.status(code)]: the handler's part, up to the moment the
    view engine takes over. *)
Definition res_render (view : string) (options : list (string * JSValue))
  : HandlerResult :=
  Send [] {| status := 200; body := View view options |}.

Definition res_status_render (code : nat) (view : string)
  (options : list (string * JSValue)) : HandlerResult :=
  Send [] {| status := code; body := View view options |}.

(** The layout option of a render call: [layout: false], a layout name, or
    absent. *)
Definition layout_option (options : list (string * JSValue)) : option JSValue :=
  lookup "layout" options.

(** ** Express routing

    Paths are matched the way Express compiles them by default: literal
    segments compare without regard to ASCII case, a [:name] segment
    captures one non-empty segment, and one trailing slash is optional. *)

Fixpoint split_slash (s : string) : list string :=
  match s with
  | EmptyString => [EmptyString]
  | String c r =>
      if Ascii.eqb c "/" then EmptyString :: split_slash r
      else
        match split_slash r with
        | h :: t => String c h :: t
        | [] => [String c EmptyString]
        end
  end.

Fixpoint drop_trailing_empty (l : list string) : list string :=
  match l with
  | [] => []
  | [x] => if String.eqb x "" then [] else [x]
  | x :: r => x :: drop_trailing_empty r
  end.

(** The segments of an absolute path; [None] when it does not start with
    a slash. *)
Definition path_segments (p : string) : option (list string) :=
  match split_slash p with
  | EmptyString :: segs => Some (drop_trailing_empty segs)
  | _ => None
  end.

Definition lower_char (c : ascii) : ascii :=
  let n := nat_of_ascii c in
  if ((65 <=? n) && (n <=? 90))%nat then ascii_of_nat (n + 32) else c.

Fixpoint lower (s : string) : string :=
  match s with
  | EmptyString => EmptyString
  | String c r => String (lower_char c) (lower r)
  end.

Inductive Segment :=
| Lit (text : string)
| Param (name : string).

Definition segment_of (s : string) : Segment :=
  match s with
  | String ":" name => Param name
  | _ => Lit s
  end.

(** The pattern a route path such as ['/saymyname/:fname/:lname'] stands
    for. *)
Definition compile_path (route : string) : list Segment :=
  match path_segments route with
  | Some segs => map segment_of segs
  | None => [Lit route]
  end.

Fixpoint match_segments (pat : list Segment) (segs : list string)
  : option (list (string * string)) :=
  match pat, segs with
  | [], [] => Some []
  | Lit l :: pat', s :: segs' =>
      if String.eqb (lower l) (lower s) then match_segments pat' segs' else None
  | Param name :: pat', s :: segs' =>
      if String.eqb s "" then None
      else
        match match_segments pat' segs' with
        | Some caps => Some ((name, s) :: caps)
        | None => None
        end
  | _, _ => None
  end.

(** The raw captures of [route] in the request path, when it matches. *)
Definition match_path (route : string) (p : string)
  : option (list (string * string)) :=
  match path_segments p with
  | Some segs => match_segments (compile_path route) segs
  | None => None
  end.

(** [app.use(mount, fn)] matches every path below the mount point. *)
Definition mount_matches (mount : string) (p : string) : bool :=
  match path_segments mount, split_slash p with
  | Some [m], EmptyString :: s :: _ => String.eqb (lower m) (lower s)
  | _, _ => false
  end.

(** A route registered with [app.get] answers GET and HEAD. *)
Definition get_handles (m : Method) : bool :=
  match m with GET | HEAD => true | _ => false end.

(** ** Collaborators

    Two things the server relies on and does not define: what
    [express.static] does with a request under its mount point, and
    [decodeURIComponent], which Express applies to every captured segment
    ([None] when it throws a URIError).

    [express.static] sends a response of its own, or hands the request on
    with [next()] (no such file, or a method other than GET and HEAD), or
    hands on an error with [next(err)] (a precondition or a range that
    fails once the file is found, an error of the file system); the error
    is an object, given by its class and properties. *)

Inductive StaticAnswer :=
| Serves (st : nat) (data : string)
| PassesOn
| Fails (cls : Class) (props : list (string * JSValue)).

Record Platform := {
  express_static : Request -> StaticAnswer;
  decodeURIComponent : string -> option string
}.

Fixpoint decode_params (pf : Platform) (caps : list (string * string))
  : string + list (string * string) :=
  match caps with
  | [] => inr []
  | (name, raw) :: r =>
      match decodeURIComponent pf raw with
      | None => inl raw
      | Some v =>
          match decode_params pf r with
          | inl bad => inl bad
          | inr vs => inr ((name, v) :: vs)
          end
      end
  end.

(** The error Express raises for a captured segment that does not decode:
    the URIError with the message rewritten and [status] set to 400.
    (Express 4 also sets [statusCode], before [status]; Express 5 does not.
    The property is left out: nothing in [server.ts] reads either.) *)
Definition decode_failure (raw : string) : JSValue :=
  JObject (ClsOther "URIError")
    [("message", JStr ("Failed to decode param '" ++ raw ++ "'"));
     ("status", JNum (Num.of_Z 400))].

(** ** The layer stack and its dispatch *)

Inductive Layer :=
| UseAt (mount : string) (h : ExpressRequest -> HandlerResult)
| Use (h : ExpressRequest -> HandlerResult)
| Get (route : string) (h : ExpressRequest -> HandlerResult)
| UseError (h : JSValue -> ExpressRequest -> HandlerResult).

(** The request ends answered, or leaves the stack unanswered (with the
    pending error, if any) for Express's final handler. *)
Inductive Outcome :=
| Answered (log : list LogEntry) (r : Response)
| Unanswered (err : option JSValue).

(** What the router does with the result of a handler.  A thrown value is
    caught and passed to [next]: the strings ['route'] and ['router'] are
    signals, any other truthy value becomes the pending error, and a falsy
    one is no error at all. *)
Definition after (res : HandlerResult) (continue : option JSValue -> Outcome)
  : Outcome :=
  match res with
  | Send log r => Answered log r
  | Next => continue None
  | Throw (JPrim (PStr s)) =>
      if String.eqb s "route" then continue None
      else if String.eqb s "router" then Unanswered None
      else if String.eqb s "" then continue None
      else continue (Some (JStr s))
  | Throw v => if ToBoolean v then continue (Some v) else continue None
  end.

Definition bare (req : Request) : ExpressRequest :=
  {| http := req; params := [] |}.

(** Layers are tried in registration order.  While an error is pending only
    error-handling layers run; without one they are skipped. *)
Fixpoint dispatch (pf : Platform) (stack : list Layer)
  (pending : option JSValue) (req : Request) : Outcome :=
  match stack with
  | [] => Unanswered pending
  | layer :: rest =>
      let continue := fun e => dispatch pf rest e req in
      match layer, pending with
      | UseAt mount h, None =>
          if mount_matches mount (req_path req)
          then after (h (bare req)) continue
          else continue None
      | Use h, None => after (h (bare req)) continue
      | Get route h, None =>
          match match_path route (req_path req) with
          | None => continue None
          | Some caps =>
              match decode_params pf caps with
              | inl raw => continue (Some (decode_failure raw))
              | inr ps =>
                  if get_handles (req_method req)
                  then after (h {| http := req; params := ps |}) continue
                  else continue None
              end
          end
      | UseError h, Some err => after (h err (bare req)) continue
      | UseError _, None => continue None
      | _, Some err => continue (Some err)
      end
  end.

(** ** The handlers of [server.ts], in source order *)

Definition handle_simple (req : ExpressRequest) : HandlerResult :=
  res_render "simple"
    [("layout", JBool false);
     ("value1", JStr "Example Value 1");
     ("value2", JStr "Example Value 2")].

Definition handle_home (req : ExpressRequest) : HandlerResult :=
  res_render "home" [("title", JStr "Home Page")].

Definition handle_saymyname (req : ExpressRequest) : HandlerResult :=
  res_render "say-name"
    [("fname", param req "fname");
     ("lname", param req "lname")].

Definition handle_saymyname2 (req : ExpressRequest) : HandlerResult :=
  res_render "say-name"
    [("layout", JStr "alternate.handlebars");
     ("fname", param req "fname");
     ("lname", param req "lname")].

Definition handle_partials_example (req : ExpressRequest) : HandlerResult :=
  res_render "say-name"
    [("layout", JStr "layout-partials.handlebars");
     ("fname", JStr "John");
     ("lname", JStr "Doe")].

Definition handle_list (req : ExpressRequest) : HandlerResult :=
  res_render "list"
    [("items", JArray [JStr "Item 1"; JStr "Item 2"; JStr "Item 3"; JStr "Item 4"])].

(** The number a decimal literal [m * 10^e] of the source denotes. *)
Definition decimal (m e : Z) : JSValue := JNum (Num.of_decimal false m e).

Definition product (name : string) (price : JSValue) (description : string)
  : JSValue :=
  literal [("name", JStr name); ("price", price); ("description", JStr description)].

Definition handle_products (req : ExpressRequest) : HandlerResult :=
  res_render "products"
    [("products", JArray
       [product "Product 1" (decimal 1999 (-2)) "Description for Product 1";
        product "Product 2" (decimal 2999 (-2)) "Description for Product 2";
        product "Product 3" (decimal 3999 (-2)) "Description for Product 3"])].

Definition handle_products_partials (req : ExpressRequest) : HandlerResult :=
  res_render "products-partials"
    [("layout", JStr "layout-partials.handlebars");
     ("products", JArray
       [product "Product 1" (decimal 1999 (-2)) "Description for Product 1";
        product "Product 2" (decimal 2999 (-2)) "Description for Product 2";
        product "Product 3" (decimal 3999 (-2)) "Description for Product 3"])].

Definition handle_profile (req : ExpressRequest) : HandlerResult :=
  res_render "profile"
    [("isLoggedIn", JBool true);
     ("username", JStr "JaneDoe");
     ("isAdmin", JBool false)].

Definition handle_unless_example (req : ExpressRequest) : HandlerResult :=
  res_render "unless-example"
    [("isLoggedIn", JBool false);
     ("username", JStr "Guest")].

(** [app.use((req, res) => { res.status(404).render('not-found'); })] *)
Definition not_found (req : ExpressRequest) : HandlerResult :=
  res_status_render 404 "not-found" [].

Definition handle_error_a (req : ExpressRequest) : HandlerResult :=
  Throw (new_AuthenticationError "User or password does not match").

Definition handle_error_b (req : ExpressRequest) : HandlerResult :=
  Throw (new_RequiredFieldError "A required field is missing").

Definition unknown_error : JSValue := JStr "unknown_error".

(** The TypeError for reading a property of [undefined] or [null]. *)
Definition cannot_read (v : JSValue) (prop : string) : JSValue :=
  let what := match v with JPrim PNull => "null" | _ => "undefined" end in
  JObject (ClsOther "TypeError")
    [("message",
      JStr ("Cannot read properties of " ++ what ++ " (reading '" ++ prop ++ "')"))].

(** The four-argument middleware: print [err.stack], then render the error
    view with [(err as AppError).code || 'unknown_error'] at status 500.
    Reading [err.stack] of [undefined] or [null] throws. *)
Definition error_middleware (err : JSValue) (req : ExpressRequest)
  : HandlerResult :=
  match get_code err with
  | None => Throw (cannot_read err "stack")
  | Some code =>
      Send [ConsoleErrorStack err]
           {| status := 500;
              body := View "error" [("code", js_or code unknown_error)] |}
  end.

Definition serve_static (pf : Platform) (req : ExpressRequest) : HandlerResult :=
  match express_static pf (http req) with
  | Serves st data => Send [] {| status := st; body := Payload data |}
  | PassesOn => Next
  | Fails cls props => Throw (JObject cls props)
  end.

(** The application: every [app.use] and [app.get] of [server.ts], in the
    order in which the file registers them. *)
Definition app (pf : Platform) : list Layer :=
  [ UseAt "/static" (serve_static pf);
    Get "/simple" handle_simple;
    Get "/" handle_home;
    Get "/saymyname/:fname/:lname" handle_saymyname;
    Get "/saymyname2/:fname/:lname" handle_saymyname2;
    Get "/partials-example" handle_partials_example;
    Get "/list" handle_list;
    Get "/products" handle_products;
    Get "/products-partials" handle_products_partials;
    Get "/profile" handle_profile;
    Get "/unless-example" handle_unless_example;
    Use not_found;
    Get "/error-a" handle_error_a;
    Get "/error-b" handle_error_b;
    UseError error_middleware ].

Definition handle (pf : Platform) (req : Request) : Outcome :=
  dispatch pf (app pf) None req.

(** The Route Table: the routes registered with [app.get]. *)
Fixpoint routes (stack : list Layer)
  : list (string * (ExpressRequest -> HandlerResult)) :=
  match stack with
  | [] => []
  | Get route h :: rest => (route, h) :: routes rest
  | _ :: rest => routes rest
  end.

(** A request matches a route structurally when the route answers its
    method and its path fits the route's pattern. *)
Definition matches_route (req : Request) (route : string) : bool :=
  get_handles (req_method req) &&
  match match_path route (req_path req) with Some _ => true | None => false end.

Definition matches_some_route (pf : Platform) (req : Request) : bool :=
  existsb (fun r => matches_route req (fst r)) (routes (app pf)).

(** ** From the render call to the reply

    What Express does with a render call.  The view engine set up in
    [server.ts] turns the view and the options into HTML, or reports an
    error, which [res.render] hands to [next].  The HTML goes to [res.send],
    which answers a fresh conditional GET or HEAD with status 304, sends no
    body with the statuses 204 and 304, and none for HEAD. *)

Record Engine := {
  (* the rendering of a view, or the error object the engine reports *)
  render_view : string -> list (string * JSValue)
                -> string + (Class * list (string * JSValue));
  (* Express's [req.fresh] test of the request's validators against the
     response that carries this HTML *)
  is_fresh : Request -> string -> bool
}.

Inductive Reply :=
| Html (status : nat) (html : string) (with_body : bool)
| Bodyless (status : nat)
| File (status : nat) (data : string).

(** The request ends with a reply, or is left, with the pending error if
    any, to Express's final handler. *)
Inductive Delivery :=
| Replied (log : list LogEntry) (reply : Reply)
| LeftToExpress (log : list LogEntry) (err : option JSValue).

Definition is_head (m : Method) : bool :=
  match m with HEAD => true | _ => false end.

(** [res.send(html)] with the status set so far. *)
Definition res_send (en : Engine) (req : Request) (st : nat) (html : string)
  : Reply :=
  let fresh :=
    (((200 <=? st) && (st <? 300) || (st =? 304))%nat
     && get_handles (req_method req) && is_fresh en req html)%bool in
  let st' := if fresh then 304 else st in
  if ((st' =? 204) || (st' =? 304))%nat then Bodyless st'
  else Html st' html (negb (is_head (req_method req))).

(** What becomes of a handler's result: a render call is rendered and sent,
    or its error handed on; a thrown value is handed on as the router does
    it. *)
Definition settle (en : Engine) (req : Request) (log : list LogEntry)
  (res : HandlerResult)
  (continue : option JSValue -> list LogEntry -> Delivery) : Delivery :=
  match res with
  | Send l {| status := st; body := View name options |} =>
      match render_view en name options with
      | inl html => Replied (log ++ l) (res_send en req st html)
      | inr (cls, props) => continue (Some (JObject cls props)) (log ++ l)
      end
  | Send l {| status := st; body := Payload data |} =>
      Replied (log ++ l) (File st data)
  | Next => continue None log
  | Throw (JPrim (PStr s)) =>
      if String.eqb s "route" then continue None log
      else if String.eqb s "router" then LeftToExpress log None
      else if String.eqb s "" then continue None log
      else continue (Some (JStr s)) log
  | Throw v => if ToBoolean v then continue (Some v) log else continue None log
  end.

(** The layers are tried as in [dispatch]; each render call is carried
    through. *)
Fixpoint serve_stack (pf : Platform) (en : Engine) (stack : list Layer)
  (pending : option JSValue) (log : list LogEntry) (req : Request) : Delivery :=
  match stack with
  | [] => LeftToExpress log pending
  | layer :: rest =>
      let continue := fun e l => serve_stack pf en rest e l req in
      match layer, pending with
      | UseAt mount h, None =>
          if mount_matches mount (req_path req)
          then settle en req log (h (bare req)) continue
          else continue None log
      | Use h, None => settle en req log (h (bare req)) continue
      | Get route h, None =>
          match match_path route (req_path req) with
          | None => continue None log
          | Some caps =>
              match decode_params pf caps with
              | inl raw => continue (Some (decode_failure raw)) log
              | inr ps =>
                  if get_handles (req_method req)
                  then settle en req log (h {| http := req; params := ps |})
                              continue
                  else continue None log
              end
          end
      | UseError h, Some err => settle en req log (h err (bare req)) continue
      | UseError _, None => continue None log
      | _, Some err => continue (Some err) log
      end
  end.

Definition serve (pf : Platform) (en : Engine) (req : Request) : Delivery :=
  serve_stack pf en (app pf) None [] req.

(** The reply that belongs to an outcome of [dispatch] when its render call
    succeeds. *)
Definition deliver (en : Engine) (req : Request) (o : Outcome) : Delivery :=
  match o with
  | Answered log {| status := st; body := View name options |} =>
      match render_view en name options with
      | inl html => Replied log (res_send en req st html)
      | inr (cls, props) => LeftToExpress log (Some (JObject cls props))
      end
  | Answered log {| status := st; body := Payload data |} =>
      Replied log (File st data)
  | Unanswered err => LeftToExpress [] err
  end.

(** ** The port

    [const port = parseInt(process.argv[2]) || 3000].  [process.argv[2]] is
    the first positional argument, [undefined] when there is none, and
    [parseInt] reads [undefined] as the string ["undefined"]. *)

Definition argument (argv : list string) : option string := nth_error argv 2.

Definition parseInt_argument (arg : option string) : Number :=
  match arg with
  | Some s => parseInt s
  | None => parseInt "undefined"
  end.

Definition default_port : JSValue := JNum (Num.of_Z 3000).

Definition port (argv : list string) : JSValue :=
  js_or (JNum (parseInt_argument (argument argv))) default_port.

(** * Vocabulary of the statements *)

(** ** Requests and responses named in the statements *)

Definition request (m : Method) (p q : string) (hd : list (string * string))
  (b : string) : Request :=
  {| req_method := m; req_path := p; req_query := q;
     req_headers := hd; req_body := b |}.

Definition not_found_response : Response :=
  {| status := 404; body := View "not-found" [] |}.

Definition error_response (code : JSValue) : Response :=
  {| status := 500; body := View "error" [("code", code)] |}.

(** The code a handler result hands to the error view, if it renders it. *)
Definition rendered_code (res : HandlerResult) : option JSValue :=
  match res with
  | Send _ {| status := _; body := View name options |} =>
      if String.eqb name "error" then lookup "code" options else None
  | _ => None
  end.

Definition sent_status (res : HandlerResult) : option nat :=
  match res with
  | Send _ r => Some (status r)
  | _ => None
  end.

(** ** Reading the products *)

Definition property_names (v : JSValue) : list string :=
  match v with
  | JObject _ props => map fst props
  | _ => []
  end.

Definition property (k : string) (v : JSValue) : option JSValue :=
  match v with
  | JObject _ props => lookup k props
  | _ => None
  end.

(** [x] is a positive binary64 number within half a unit in the last place
    of the decimal [m / 10^k]. *)
Definition nearest_double (x : Number) (m k : Z) : bool :=
  match x with
  | S754_finite false mant ex =>
      bounded Num.prec Num.emax mant ex && (ex <? 0)%Z &&
      (2 * Z.abs (Zpos mant * 10 ^ k - m * 2 ^ (- ex)) <=? 10 ^ k)%Z
  | _ => false
  end.

(** ** The variants of the taxonomy *)

Inductive Variant := Base | Authentication | RequiredField.

Definition construct (k : Variant) (message : string) : JSValue :=
  match k with
  | Base => new_AppError message
  | Authentication => new_AuthenticationError message
  | RequiredField => new_RequiredFieldError message
  end.

Definition variant_class (k : Variant) : Class :=
  match k with
  | Base => ClsAppError
  | Authentication => ClsAuthenticationError
  | RequiredField => ClsRequiredFieldError
  end.

(** The codes as the specification lists them. *)
Definition variant_code (k : Variant) : string :=
  match k with
  | Base => "unknown_error"
  | Authentication => "auth_error"
  | RequiredField => "required_field_error"
  end.

Definition class_of (v : JSValue) : option Class :=
  match v with
  | JObject cls _ => Some cls
  | _ => None
  end.

(** ** Failures from outside the taxonomy *)

(** A failure from outside the taxonomy that carries a code of its own: the
    error Node raises for a file that does not exist. *)
Definition enoent_error : JSValue :=
  JObject ClsError
    [("message", JStr "ENOENT: no such file or directory");
     ("errno", JNum (Num.of_Z (-2)));
     ("code", JStr "ENOENT");
     ("syscall", JStr "open")].

(** The claim of C9 as it is worded: [unknown_error] is rendered exactly
    when the code read from the thrown value is absent or falsy. *)
Definition unknown_error_iff_no_code (err : JSValue) (req : ExpressRequest)
  : Prop :=
  rendered_code (error_middleware err req) = Some unknown_error <->
  (exists c, get_code err = Some c /\ ToBoolean c = false).

(** ** Requests outside the Route Table *)

(** The path fits the route but a captured segment does not decode.  Express
    decodes while it matches the path, before it looks at the method. *)
Definition undecodable (pf : Platform) (req : Request) (route : string) : bool :=
  match match_path route (req_path req) with
  | Some caps =>
      match decode_params pf caps with
      | inl _ => true
      | inr _ => false
      end
  | None => false
  end.

Definition some_capture_undecodable (pf : Platform) (req : Request) : bool :=
  existsb (fun r => undecodable pf req (fst r)) (routes (app pf)).

(** A platform for the examples: the static directory holds [styles.css],
    as the repository's does, and the segments at hand carry no escapes, so
    decoding leaves them as they are. *)
Definition platform_with_stylesheet : Platform :=
  {| express_static := fun req =>
       if (get_handles (req_method req) &&
           String.eqb (req_path req) "/static/styles.css")%bool
       then Serves 200 "body { margin: 0; }"
       else PassesOn;
     decodeURIComponent := fun s => Some s |}.

(** The same platform with a decoder that rejects the truncated escape
    sequence [%E0], as [decodeURIComponent] does. *)
Definition platform_rejecting_escape : Platform :=
  {| express_static := express_static platform_with_stylesheet;
     decodeURIComponent := fun s =>
       if String.eqb s "%E0" then None else Some s |}.

(** ** What a render call amounts to *)

(** The HTML of a handler's render call under a rendering function. *)
Definition html (renderer : string -> list (string * JSValue) -> string)
  (res : HandlerResult) : option string :=
  match res with
  | Send _ {| status := _; body := View name options |} =>
      Some (renderer name options)
  | _ => None
  end.

(** The triple a handler produces: view, options, layout option. *)
Definition triple (res : HandlerResult)
  : option (string * list (string * JSValue) * option JSValue) :=
  match res with
  | Send _ {| status := _; body := View name options |} =>
      Some (name, options, layout_option options)
  | _ => None
  end.

(** ** Decimal numerals *)

Definition is_decimal_digit (c : ascii) : bool :=
  let n := Lex.code c in ((48 <=? n) && (n <=? 57))%nat.

Definition starts_with_digit (s : string) : bool :=
  match s with
  | String c _ => is_decimal_digit c
  | EmptyString => false
  end.

(** A decimal numeral: its digits, whether it is one, and its value. *)
Fixpoint digit_values (ds : string) : list Z :=
  match ds with
  | EmptyString => []
  | String c r => Z.of_nat (Lex.code c - 48) :: digit_values r
  end.

Fixpoint all_digits (ds : string) : bool :=
  match ds with
  | EmptyString => true
  | String c r => is_decimal_digit c && all_digits r
  end.

Definition is_numeral (ds : string) : bool :=
  starts_with_digit ds && all_digits ds.

Definition numeral (ds : string) : Z := Lex.digits_value 10 (digit_values ds).

(** [all_truthy count z]: the Numbers for [z], [z + 1], ... ([count] of
    them) are all truthy. *)
Fixpoint all_truthy (count : nat) (z : Z) : bool :=
  match count with
  | O => true
  | S count' => ToBoolean (JNum (Num.of_Z z)) && all_truthy count' (z + 1)
  end.

(** In the words of C5: the argument is not the text of a number. *)
Definition non_numeric (s : string) : Prop :=
  Num.is_nan (StringToNumber s) = true.

(** ** The code of an error object *)

(** What [err.code] reads on an object with these properties. *)
Definition code_among (props : list (string * JSValue)) : JSValue :=
  match lookup "code" props with
  | Some c => c
  | None => JUndefined
  end.

(** A layer that is not an error handler. *)
Definition plain_layer (layer : Layer) : Prop :=
  match layer with
  | UseError _ => False
  | _ => True
  end.

(** ** Paths and pages *)

(** The views the page routes render. *)
Definition page_views : list string :=
  ["simple"; "home"; "say-name"; "list"; "products"; "products-partials";
   "profile"; "unless-example"].

(** A path segment free of slashes, and a non-empty one. *)
Fixpoint no_slash (s : string) : bool :=
  match s with
  | EmptyString => true
  | String c r => negb (Ascii.eqb c "/") && no_slash r
  end.

Definition is_segment (s : string) : bool :=
  no_slash s && negb (String.eqb s "").

(** ** Layers, white space and hexadecimal numerals *)


Fixpoint all_white (s : string) : bool :=
  match s with
  | EmptyString => true
  | String c r => Lex.is_white_space c && all_white r
  end.

Definition is_hex_digit (c : ascii) : bool :=
  match Lex.radix_digit 16 c with Some _ => true | None => false end.

Definition starts_with_hex_digit (s : string) : bool :=
  match s with
  | String c _ => is_hex_digit c
  | EmptyString => false
  end.

Fixpoint all_hex_digits (hs : string) : bool :=
  match hs with
  | EmptyString => true
  | String c r => is_hex_digit c && all_hex_digits r
  end.

(** The digits of a hexadecimal numeral: 0-9, then a-f or A-F for 10-15. *)
Definition hex_digit_value (c : ascii) : Z :=
  let n := Lex.code c in
  if (n <=? 57)%nat then Z.of_nat (n - 48)
  else if (n <=? 70)%nat then Z.of_nat (n - 55)
  else Z.of_nat (n - 87).

Fixpoint hex_digit_values (hs : string) : list Z :=
  match hs with
  | EmptyString => []
  | String c r => hex_digit_value c :: hex_digit_values r
  end.

Definition hex_numeral (hs : string) : Z :=
  Lex.digits_value 16 (hex_digit_values hs).

(** The thrown value has no [code] to show: it is no object, or an object
    without that property. *)
Definition has_no_code (err : JSValue) : Prop :=
  match err with
  | JObject _ props => lookup "code" props = None
  | _ => True
  end.

(** ** The leading integer of an argument *)

(** The longest prefix of characters that pass a test. *)
Fixpoint leading_run (test : ascii -> bool) (s : string) : string :=
  match s with
  | EmptyString => EmptyString
  | String c r => if test c then String c (leading_run test r) else EmptyString
  end.

Fixpoint has_nonzero_digit (run : string) : bool :=
  match run with
  | EmptyString => false
  | String c r => negb (Ascii.eqb c "0") || has_nonzero_digit r
  end.

Definition digit_test (R : Z) : ascii -> bool :=
  if (R =? 16)%Z then is_hex_digit else is_decimal_digit.

(** After leading white space, an optional sign and an optional [0x], the
    argument goes on with digits that are not all zeros: it begins with an
    integer of nonzero value. *)
Definition leading_nonzero_integer (s : string) : bool :=
  let '(R, s2) := strip_hex_prefix (snd (Lex.split_sign (Lex.trim_start s))) in
  has_nonzero_digit (leading_run (digit_test R) s2).

(** ** Failures of the collaborators *)

(** The error comes from a collaborator of the server: from the decoding of
    a path parameter, from [express.static], or from the view engine. *)
Definition collaborator_failure (pf : Platform) (en : Engine) (req : Request)
  (err : JSValue) : Prop :=
  (exists raw, err = decode_failure raw) \/
  (exists cls props,
      express_static pf req = Fails cls props /\ err = JObject cls props) \/
  (exists name options cls props,
      render_view en name options = inr (cls, props) /\
      err = JObject cls props).

(** The ways a request ends: with a file of the static directory; with a
    page of the Route Table, rendered and sent with status 200 (or found
    fresh); with the not-found page; with the error page, after a failure of
    a collaborator, logged, with the failure's own code or the default; or,
    when the error page itself does not render, in Express's final handler
    with that second error. *)
Inductive ServeOutcome (pf : Platform) (en : Engine) (req : Request)
  : Delivery -> Prop :=
| StaticFile (st : nat) (data : string) :
    mount_matches "/static" (req_path req) = true ->
    express_static pf req = Serves st data ->
    ServeOutcome pf en req (Replied [] (File st data))
| Page (view : string) (options : list (string * JSValue)) (html : string) :
    In view page_views ->
    render_view en view options = inl html ->
    ServeOutcome pf en req (Replied [] (res_send en req 200 html))
| NotFoundPage (html : string) :
    render_view en "not-found" [] = inl html ->
    ServeOutcome pf en req
      (Replied [] (Html 404 html (negb (is_head (req_method req)))))
| ErrorPage (cls : Class) (props : list (string * JSValue)) (html : string) :
    collaborator_failure pf en req (JObject cls props) ->
    render_view en "error" [("code", js_or (code_among props) unknown_error)]
    = inl html ->
    ServeOutcome pf en req
      (Replied [ConsoleErrorStack (JObject cls props)]
               (Html 500 html (negb (is_head (req_method req)))))
| NoErrorPage (cls : Class) (props : list (string * JSValue))
    (cls' : Class) (props' : list (string * JSValue)) :
    collaborator_failure pf en req (JObject cls props) ->
    render_view en "error" [("code", js_or (code_among props) unknown_error)]
    = inr (cls', props') ->
    ServeOutcome pf en req
      (LeftToExpress [ConsoleErrorStack (JObject cls props)]
                     (Some (JObject cls' props'))).

(** A platform for the examples whose [express.static] finds [styles.css]
    and fails on the byte range asked for. *)
Definition range_error : list (string * JSValue) :=
  [("message", JStr "Range Not Satisfiable");
   ("status", JNum (Num.of_Z 416))].

Definition platform_refusing_range : Platform :=
  {| express_static := fun req =>
       if String.eqb (req_path req) "/static/styles.css"
       then Fails (ClsOther "RangeNotSatisfiableError") range_error
       else PassesOn;
     decodeURIComponent := fun s => Some s |}.

(** An engine for the examples: every view renders to its own name, and a
    request is fresh when its [if-none-match] header is the rendering. *)
Definition engine_with_validator : Engine :=
  {| render_view := fun name _ => inl name;
     is_fresh := fun req html =>
       match lookup "if-none-match" (req_headers req) with
       | Some tag => String.eqb tag html
       | None => false
       end |}.

(** An engine that finds every view but one, for which it reports an error
    with the given code. *)
Definition engine_failing_at (view code : string) : Engine :=
  {| render_view := fun name _ =>
       if String.eqb name view
       then inr (ClsOther "Error", [("code", JStr code)])
       else inl name;
     is_fresh := fun _ _ => false |}.

(** * Properties *)

(** ** The [equals] helper *)

Lemma bool_to_number_eqb (a b : bool) :
  Num.eqb (bool_to_number a) (bool_to_number b) = Bool.eqb a b.
Proof. destruct a, b; reflexivity. Qed.

(** Turning a boolean operand into its number first does not change the
    verdict, on either side. *)
Lemma loose_eq_prim_bool_l (b : bool) (q : Primitive) :
  loose_eq_prim (PBool b) q = loose_eq_prim (PNum (bool_to_number b)) q.
Proof.
  destruct q as [| |c|n|s]; try reflexivity.
  unfold loose_eq_prim; simpl. symmetry. apply bool_to_number_eqb.
Qed.

Lemma loose_eq_prim_bool_r (p : Primitive) (b : bool) :
  loose_eq_prim p (PBool b) = loose_eq_prim p (PNum (bool_to_number b)).
Proof.
  destruct p; try reflexivity.
  unfold loose_eq_prim; simpl. symmetry. apply bool_to_number_eqb.
Qed.

Lemma strictly_equal_num (a b : Number) :
  Num.eqb a b = true -> CoercedEqual (Val (PNum a)) (Val (PNum b)).
Proof.
  intros H. apply CE_same_type; [constructor | constructor; exact H].
Qed.

Lemma loose_eq_prim_complete (p q : Primitive) :
  loose_eq_prim p q = true -> CoercedEqual (Val p) (Val q).
Proof.
  destruct p as [| |a|a|a], q as [| |b|b|b];
    unfold loose_eq_prim; simpl; intros H; try discriminate H.
  - apply CE_same_type; constructor.
  - apply CE_undefined_null.
  - apply CE_null_undefined.
  - apply CE_same_type; constructor.
  - apply Bool.eqb_prop in H. subst b. apply CE_same_type; constructor.
  - apply CE_boolean_left, strictly_equal_num, H.
  - apply CE_boolean_left, CE_number_string, strictly_equal_num, H.
  - apply CE_boolean_right, strictly_equal_num, H.
  - apply strictly_equal_num, H.
  - apply CE_number_string, strictly_equal_num, H.
  - apply CE_boolean_right, CE_string_number, strictly_equal_num, H.
  - apply CE_string_number, strictly_equal_num, H.
  - apply String.eqb_eq in H. subst b. apply CE_same_type; constructor.
Qed.

Lemma equals_complete (a b : Operand) :
  equals a b = Some true -> CoercedEqual a b.
Proof.
  unfold equals.
  destruct a as [p|x cx], b as [q|y cy]; simpl.
  - intros H. injection H as H. apply loose_eq_prim_complete, H.
  - destruct cy as [q|].
    + destruct p as [| |b|n|s]; simpl; intros H; try discriminate H;
        injection H as H.
      * apply CE_boolean_left, CE_primitive_object; [exact I|].
        apply loose_eq_prim_complete. rewrite <- loose_eq_prim_bool_l. exact H.
      * apply CE_primitive_object; [exact I|]. apply loose_eq_prim_complete, H.
      * apply CE_primitive_object; [exact I|]. apply loose_eq_prim_complete, H.
    + destruct p; simpl; intros H; discriminate H.
  - destruct cx as [p|].
    + destruct q as [| |b|n|s]; simpl; intros H; try discriminate H;
        injection H as H.
      * apply CE_boolean_right, CE_object_primitive; [exact I|].
        apply loose_eq_prim_complete. rewrite <- loose_eq_prim_bool_r. exact H.
      * apply CE_object_primitive; [exact I|]. apply loose_eq_prim_complete, H.
      * apply CE_object_primitive; [exact I|]. apply loose_eq_prim_complete, H.
    + destruct q; simpl; intros H; discriminate H.
  - intros H. injection H as H. apply Nat.eqb_eq in H. subst y.
    apply CE_same_object.
Qed.

Lemma equals_val_val (p q : Primitive) (r : bool) :
  equals (Val p) (Val q) = Some r -> loose_eq_prim p q = r.
Proof. unfold equals; simpl. intros H. injection H as H. exact H. Qed.

Lemma equals_sound (a b : Operand) :
  CoercedEqual a b -> equals a b = Some true.
Proof.
  induction 1 as
    [p q Ht Hs | x c c' | | | n s _ IH | s n _ IH | b y _ IH | x b _ IH
    | p x q Hp _ IH | x p q Hq _ IH].
  - unfold equals; simpl. f_equal.
    destruct Hs; inversion Ht; subst; unfold loose_eq_prim; simpl; auto.
    + apply Bool.eqb_reflx.
    + apply String.eqb_refl.
  - unfold equals; simpl. now rewrite Nat.eqb_refl.
  - reflexivity.
  - reflexivity.
  - apply equals_val_val in IH. unfold equals; simpl. f_equal. exact IH.
  - apply equals_val_val in IH. unfold equals; simpl. f_equal. exact IH.
  - destruct y as [q|y [q|]]; unfold equals in *; simpl in *.
    + injection IH as IH. f_equal. now rewrite loose_eq_prim_bool_l.
    + injection IH as IH. f_equal. now rewrite loose_eq_prim_bool_l.
    + discriminate IH.
  - destruct x as [p|x [p|]]; unfold equals in *; simpl in *.
    + injection IH as IH. f_equal. now rewrite loose_eq_prim_bool_r.
    + injection IH as IH. f_equal. now rewrite loose_eq_prim_bool_r.
    + discriminate IH.
  - apply equals_val_val in IH.
    destruct p; try contradiction; unfold equals; simpl; now f_equal.
  - apply equals_val_val in IH.
    destruct q; try contradiction; unfold equals; simpl; now f_equal.
Qed.

(** C4. [equals(a, b)] is true exactly when [a] and [b] are equal after
    implicit type coercion; [equals(1, "1")] is true and [equals("a", "b")]
    is false. *)
Theorem equals_loose_equality :
  (forall a b : Operand, equals a b = Some true <-> CoercedEqual a b) /\
  equals (Val (PNum (Num.of_Z 1))) (Val (PStr "1")) = Some true /\
  equals (Val (PStr "a")) (Val (PStr "b")) = Some false.
Proof.
  split; [|split].
  - intros a b. split; [apply equals_complete | apply equals_sound].
  - reflexivity.
  - reflexivity.
Qed.

(** ** The error routes *)

(** Had a request reached them, the two artificial routes and the error
    middleware after them would answer 500 with the code of the class. *)
Lemma error_routes_when_reached (pf : Platform) (q : string)
  (hd : list (string * string)) (b : string) :
  let tail := [Get "/error-a" handle_error_a; Get "/error-b" handle_error_b;
               UseError error_middleware] in
  (exists log, dispatch pf tail None (request GET "/error-a" q hd b)
               = Answered log (error_response (JStr "auth_error"))) /\
  (exists log, dispatch pf tail None (request GET "/error-b" q hd b)
               = Answered log (error_response (JStr "required_field_error"))).
Proof. split; eexists; reflexivity. Qed.

(** C1. In the stack as registered, [GET /error-a] and [GET /error-b] are
    answered by the not-found middleware, which is registered before the two
    routes and passes nothing on: status 404 and the not-found view, not 500
    and the error view. *)
Theorem error_routes_answered_not_found (pf : Platform) (q : string)
  (hd : list (string * string)) (b : string) :
  handle pf (request GET "/error-a" q hd b) = Answered [] not_found_response /\
  handle pf (request GET "/error-b" q hd b) = Answered [] not_found_response.
Proof. split; reflexivity. Qed.

(** ** The products page *)

(** C7. The options handed to the [products] view hold exactly three
    product records, each with the fields name, price and description, in
    the order Product 1, Product 2, Product 3, priced 19.99, 29.99 and
    39.99. *)
Theorem products_context (pf : Platform) (q : string)
  (hd : list (string * string)) (b : string) :
  exists (p1 p2 p3 : JSValue) (x1 x2 x3 : Number),
    handle pf (request GET "/products" q hd b)
    = Answered [] {| status := 200;
                     body := View "products" [("products", JArray [p1; p2; p3])] |} /\
    map property_names [p1; p2; p3]
    = [["name"; "price"; "description"];
       ["name"; "price"; "description"];
       ["name"; "price"; "description"]] /\
    map (property "name") [p1; p2; p3]
    = [Some (JStr "Product 1"); Some (JStr "Product 2"); Some (JStr "Product 3")] /\
    map (property "price") [p1; p2; p3]
    = [Some (JNum x1); Some (JNum x2); Some (JNum x3)] /\
    nearest_double x1 1999 2 = true /\
    nearest_double x2 2999 2 = true /\
    nearest_double x3 3999 2 = true.
Proof.
  do 6 eexists. split; [reflexivity|].
  repeat split; vm_compute; reflexivity.
Qed.

(** ** The error taxonomy *)

Lemma construct_truthy (k : Variant) (message : string) :
  ToBoolean (construct k message) = true.
Proof. destruct k; reflexivity. Qed.

Lemma construct_code (k : Variant) (message : string) :
  get_code (construct k message) = Some (JStr (variant_code k)).
Proof. destruct k; reflexivity. Qed.

(** C8. An error constructed from one of the three classes belongs to that
    variant and to no other, carries the code fixed for the variant whatever
    its message, is an [AppError], and keeps its code from construction to
    its only consumer: the router hands the thrown object on as it is, and
    the error middleware renders and logs that same code.  The two throwing
    handlers construct such errors. *)
Theorem taxonomy_codes_fixed (k : Variant) (message : string)
  (req : ExpressRequest) (continue : option JSValue -> Outcome) :
  let e := construct k message in
  (forall k', class_of e = Some (variant_class k') <-> k' = k) /\
  get_code e = Some (JStr (variant_code k)) /\
  instanceof e ClsAppError = true /\
  after (Throw e) continue = continue (Some e) /\
  error_middleware e req
  = Send [ConsoleErrorStack e] (error_response (JStr (variant_code k))) /\
  get_code (new_AppError message) = Some (JStr "unknown_error") /\
  get_code (new_AuthenticationError message) = Some (JStr "auth_error") /\
  get_code (new_RequiredFieldError message) = Some (JStr "required_field_error") /\
  handle_error_a req = Throw (construct Authentication "User or password does not match") /\
  handle_error_b req = Throw (construct RequiredField "A required field is missing").
Proof.
  intros e. subst e. repeat split; try (destruct k; reflexivity).
  - destruct k, k'; simpl; intros H; try reflexivity; discriminate H.
  - intros ->. destruct k; reflexivity.
Qed.

(** ** The error middleware *)

(** C2. At a failure that is no [AppError] and has a code, the middleware
    renders that code, where the claim and the comment above the middleware
    call for [unknown_error].  The status is 500. *)
Theorem error_middleware_foreign_code (req : ExpressRequest) :
  instanceof enoent_error ClsAppError = false /\
  error_middleware enoent_error req
  = Send [ConsoleErrorStack enoent_error] (error_response (JStr "ENOENT")) /\
  rendered_code (error_middleware enoent_error req) <> Some unknown_error.
Proof.
  split; [reflexivity|]. split; [reflexivity|].
  simpl. intros H. discriminate H.
Qed.

(** Every value that reaches the middleware is truthy, and for a truthy
    value the middleware answers 500 with the error view. *)
Lemma error_middleware_answers (err : JSValue) (req : ExpressRequest) :
  ToBoolean err = true ->
  exists c, get_code err = Some c /\
            error_middleware err req
            = Send [ConsoleErrorStack err] (error_response (js_or c unknown_error)).
Proof.
  intros H. unfold error_middleware.
  destruct err as [[| |b|n|s]|l|cls props]; simpl in *; try discriminate H;
    try (eexists; split; reflexivity).
  destruct (lookup "code" props); eexists; split; reflexivity.
Qed.

(** A base [AppError] has the truthy code ['unknown_error'] of its own, and
    that is what is rendered. *)
Lemma base_error_renders_unknown_error :
  ~ (forall err req, ToBoolean err = true -> unknown_error_iff_no_code err req).
Proof.
  intros H.
  specialize (H (new_AppError "failure") (bare (request GET "/" "" [] ""))
                eq_refl).
  destruct H as [H _]. destruct (H eq_refl) as [c [Hc Hf]].
  simpl in Hc. injection Hc as <-. discriminate Hf.
Qed.

(** C9, amended. For a thrown value that reaches the middleware, the code
    rendered is the value's own [code] whenever that is truthy, whether or
    not the value is an [AppError]; it is [unknown_error] whenever the
    [code] is absent or falsy, and otherwise only when the [code] itself is
    the string [unknown_error].  The status is 500. *)
Theorem error_middleware_code_or_default (err : JSValue) (req : ExpressRequest) :
  ToBoolean err = true ->
  exists c,
    get_code err = Some c /\
    sent_status (error_middleware err req) = Some 500 /\
    (ToBoolean c = true -> rendered_code (error_middleware err req) = Some c) /\
    (ToBoolean c = false ->
       rendered_code (error_middleware err req) = Some unknown_error) /\
    (rendered_code (error_middleware err req) = Some unknown_error ->
       ToBoolean c = false \/ c = unknown_error).
Proof.
  intros H. destruct (error_middleware_answers err req H) as [c [Hc Hr]].
  exists c. rewrite Hr. simpl. unfold js_or.
  split; [exact Hc|]. split; [reflexivity|].
  destruct (ToBoolean c) eqn:Hb.
  - split; [reflexivity|]. split; [discriminate|].
    intros E. injection E as E. right. exact E.
  - split; [discriminate|]. split; [reflexivity|]. intros _. left. reflexivity.
Qed.

(** The file-system error, no [AppError], renders its own code. *)
Lemma error_middleware_code_or_default_witness :
  ToBoolean enoent_error = true /\
  instanceof enoent_error ClsAppError = false /\
  exists c,
    get_code enoent_error = Some c /\ c = JStr "ENOENT" /\
    rendered_code (error_middleware enoent_error (bare (request GET "/" "" [] "")))
    = Some c.
Proof.
  split; [reflexivity|]. split; [reflexivity|].
  destruct (error_middleware_code_or_default enoent_error
              (bare (request GET "/" "" [] "")) eq_refl)
    as [c [Hc [_ [Ht _]]]].
  exists c. simpl in Hc. injection Hc as Hc. subst c.
  split; [reflexivity|]. split; [reflexivity|]. apply Ht. reflexivity.
Defined.

(** ** Requests that match no route *)

Lemma dispatch_get_skipped (pf : Platform) (req : Request) (route : string)
  (h : ExpressRequest -> HandlerResult) (rest : list Layer) :
  matches_route req route = false ->
  undecodable pf req route = false ->
  dispatch pf (Get route h :: rest) None req = dispatch pf rest None req.
Proof.
  unfold matches_route, undecodable. cbn [dispatch].
  destruct (match_path route (req_path req)) as [caps|]; [|reflexivity].
  destruct (decode_params pf caps) as [raw|ps]; [discriminate|].
  destruct (get_handles (req_method req)); simpl; [discriminate|reflexivity].
Qed.

Lemma dispatch_static_passes (pf : Platform) (req : Request) (rest : list Layer) :
  mount_matches "/static" (req_path req) = false \/
  express_static pf req = PassesOn ->
  dispatch pf (UseAt "/static" (serve_static pf) :: rest) None req
  = dispatch pf rest None req.
Proof.
  intros H. cbn [dispatch].
  destruct (mount_matches "/static" (req_path req)); [|reflexivity].
  destruct H as [H|H]; [discriminate|].
  unfold serve_static, bare. cbn [http]. rewrite H. reflexivity.
Qed.

Lemma dispatch_not_found (pf : Platform) (req : Request) (rest : list Layer) :
  dispatch pf (Use not_found :: rest) None req = Answered [] not_found_response.
Proof. reflexivity. Qed.

(** The claim of C3 as it is worded fails at a request for a static asset:
    it matches no route, and [express.static], registered first, answers
    it. *)
Lemma static_asset_not_404 :
  ~ (forall pf req,
       matches_some_route pf req = false ->
       handle pf req = Answered [] not_found_response).
Proof.
  intros H.
  specialize (H platform_with_stylesheet
                (request GET "/static/styles.css" "" [] "") eq_refl).
  discriminate H.
Qed.

(** C3, amended. A request that structurally matches no route of the Route
    Table, that [express.static] is not asked about or passes on (it neither
    answers it nor fails on it), and whose path has no undecodable captured
    segment, is answered with status 404 and the not-found view with empty
    options. *)
Theorem unmatched_request_not_found (pf : Platform) (req : Request) :
  matches_some_route pf req = false ->
  mount_matches "/static" (req_path req) = false \/
  express_static pf req = PassesOn ->
  some_capture_undecodable pf req = false ->
  handle pf req = Answered [] not_found_response.
Proof.
  intros Hm Hs Hd.
  unfold matches_some_route, app in Hm. cbn [routes existsb fst] in Hm.
  unfold some_capture_undecodable, app in Hd. cbn [routes existsb fst] in Hd.
  repeat (apply Bool.orb_false_iff in Hm; destruct Hm as [? Hm]).
  repeat (apply Bool.orb_false_iff in Hd; destruct Hd as [? Hd]).
  unfold handle, app.
  rewrite dispatch_static_passes by exact Hs.
  repeat rewrite dispatch_get_skipped by assumption.
  apply dispatch_not_found.
Qed.

Lemma unmatched_request_not_found_witness :
  handle platform_with_stylesheet (request GET "/does-not-exist" "" [] "")
  = Answered [] not_found_response.
Proof.
  apply unmatched_request_not_found.
  - reflexivity.
  - left. reflexivity.
  - reflexivity.
Defined.

(** The second proviso is needed: a path that fits a route with a segment
    that does not decode raises Express's error whatever the method, and the
    request ends in the error middleware. *)
Lemma undecodable_capture_answers_500 :
  let req := request POST "/saymyname/%E0/Doe" "" [] "" in
  matches_some_route platform_rejecting_escape req = false /\
  handle platform_rejecting_escape req
  = Answered [ConsoleErrorStack (decode_failure "%E0")]
             (error_response unknown_error).
Proof. split; reflexivity. Qed.

(** One step of the dispatch at a route, without a pending error: the route
    is passed over, or raises the decoding error, or its handler runs. *)
Lemma dispatch_get_cases (pf : Platform) (req : Request) (route : string)
  (h : ExpressRequest -> HandlerResult) (rest : list Layer) :
  dispatch pf (Get route h :: rest) None req = dispatch pf rest None req \/
  (exists raw, dispatch pf (Get route h :: rest) None req
               = dispatch pf rest (Some (decode_failure raw)) req) \/
  (exists ps, dispatch pf (Get route h :: rest) None req
              = after (h {| http := req; params := ps |})
                      (fun e => dispatch pf rest e req)).
Proof.
  cbn [dispatch].
  destruct (match_path route (req_path req)) as [caps|]; [|left; reflexivity].
  destruct (decode_params pf caps) as [raw|ps].
  - right. left. exists raw. reflexivity.
  - destruct (get_handles (req_method req)).
    + right. right. exists ps. reflexivity.
    + left. reflexivity.
Qed.

(** An error object that is pending passes every layer that is no error
    handler and is answered by the error middleware. *)
Lemma pending_object_answered (pf : Platform) (req : Request) (cls : Class)
  (props : list (string * JSValue)) (stack rest : list Layer) :
  Forall plain_layer stack ->
  dispatch pf (stack ++ UseError error_middleware :: rest)
           (Some (JObject cls props)) req
  = Answered [ConsoleErrorStack (JObject cls props)]
             (error_response (js_or (code_among props) unknown_error)).
Proof.
  induction 1 as [|layer stack Hl _ IH].
  - cbn [Datatypes.app dispatch]. unfold error_middleware, get_code, code_among.
    destruct (lookup "code" props); reflexivity.
  - cbn [Datatypes.app dispatch]. destruct layer; try contradiction; exact IH.
Qed.

(** Rewrites the dispatch of a listed stack that ends in the error
    middleware, under a pending error object, into the middleware's
    answer. *)
Ltac answer_pending pf req cls props :=
  match goal with
  | |- context [dispatch pf ?stack (Some (JObject cls props)) req] =>
      let mid := eval cbn [removelast] in (removelast stack) in
      change stack with (mid ++ [UseError error_middleware]);
      rewrite (pending_object_answered pf req cls props mid [])
        by (repeat (apply Forall_cons; [exact I|]); apply Forall_nil)
  end.

(** The step of the dispatch at the static layer: the request goes on, or
    is answered there, or goes on with the error [express.static] hands
    over. *)
Lemma dispatch_static_cases (pf : Platform) (req : Request) (rest : list Layer) :
  dispatch pf (UseAt "/static" (serve_static pf) :: rest) None req
  = dispatch pf rest None req \/
  (exists st data,
      mount_matches "/static" (req_path req) = true /\
      express_static pf req = Serves st data /\
      dispatch pf (UseAt "/static" (serve_static pf) :: rest) None req
      = Answered [] {| status := st; body := Payload data |}) \/
  (exists cls props,
      mount_matches "/static" (req_path req) = true /\
      express_static pf req = Fails cls props /\
      dispatch pf (UseAt "/static" (serve_static pf) :: rest) None req
      = dispatch pf rest (Some (JObject cls props)) req).
Proof.
  cbn [dispatch].
  destruct (mount_matches "/static" (req_path req)); [|left; reflexivity].
  unfold serve_static. cbn [bare http].
  destruct (express_static pf req) as [st data| |cls props].
  - right. left. exists st, data. repeat split.
  - left. reflexivity.
  - right. right. exists cls, props. repeat split.
Qed.

(** The server answers every request: no request leaves the stack
    unanswered, with or without an error. *)
Lemma handle_always_answers (pf : Platform) (req : Request) :
  exists log r, handle pf req = Answered log r.
Proof.
  unfold handle, app.
  match goal with
  | |- context [dispatch pf (UseAt _ _ :: ?rest) None req] =>
      destruct (dispatch_static_cases pf req rest)
        as [E|[[st [data [_ [_ E]]]]|[cls [props [_ [_ E]]]]]]; rewrite E; clear E
  end.
  2:{ eexists; eexists; reflexivity. }
  2:{ answer_pending pf req cls props. eexists; eexists; reflexivity. }
  repeat
    (match goal with
     | |- exists log r, dispatch pf (Get ?route ?h :: ?rest) None req = _ =>
         destruct (dispatch_get_cases pf req route h rest)
           as [E|[[raw E]|[ps E]]];
         rewrite E; clear E;
         [ | eexists; eexists; reflexivity | eexists; eexists; reflexivity ]
     end).
  eexists; eexists; reflexivity.
Qed.

(** ** Handlers as functions of the captured parameters *)

(** C6. Every handler of the Route Table is a function of the parameters
    its route captures: two requests that agree on them, whatever else
    differs, get the same result, hence the same triple and the same HTML
    under any renderer.  For a route that captures nothing (a fixed-data
    route) every two requests do. *)
Theorem handlers_depend_on_params_only (pf : Platform) (route : string)
  (h : ExpressRequest -> HandlerResult) :
  In (route, h) (routes (app pf)) ->
  (forall r1 r2 : ExpressRequest,
      (forall name, In (Param name) (compile_path route) ->
                    lookup name (params r1) = lookup name (params r2)) ->
      h r1 = h r2 /\
      triple (h r1) = triple (h r2) /\
      forall renderer, html renderer (h r1) = html renderer (h r2)) /\
  ((forall name, ~ In (Param name) (compile_path route)) ->
   forall r1 r2 : ExpressRequest,
      h r1 = h r2 /\
      triple (h r1) = triple (h r2) /\
      forall renderer, html renderer (h r1) = html renderer (h r2)).
Proof.
  intros Hin.
  assert (Hmain : forall r1 r2 : ExpressRequest,
             (forall name, In (Param name) (compile_path route) ->
                           lookup name (params r1) = lookup name (params r2)) ->
             h r1 = h r2).
  { intros r1 r2 Hp. unfold app in Hin. cbn [routes In] in Hin.
    repeat (destruct Hin as [Hin|Hin];
            [injection Hin as <- <-; try reflexivity|]); try contradiction.
    - unfold handle_saymyname, param.
      rewrite (Hp "fname"), (Hp "lname"); [reflexivity| |]; vm_compute; tauto.
    - unfold handle_saymyname2, param.
      rewrite (Hp "fname"), (Hp "lname"); [reflexivity| |]; vm_compute; tauto. }
  split.
  - intros r1 r2 Hp. rewrite (Hmain r1 r2 Hp). repeat split.
  - intros Hno r1 r2.
    assert (E : h r1 = h r2).
    { apply Hmain. intros name Hn. destruct (Hno name Hn). }
    rewrite E. repeat split.
Qed.

Lemma handlers_depend_on_params_only_witness :
  handle_saymyname
    {| http := request GET "/saymyname/John/Doe" "" [] "";
       params := [("fname", "John"); ("lname", "Doe")] |}
  = handle_saymyname
    {| http := request HEAD "/SayMyName/John/Doe/" "utm=1" [("accept", "*/*")] "";
       params := [("fname", "John"); ("lname", "Doe")] |}.
Proof.
  refine (proj1 (proj1 (handlers_depend_on_params_only
                          platform_with_stylesheet
                          "/saymyname/:fname/:lname" handle_saymyname _) _ _ _)).
  - simpl. tauto.
  - intros name _. reflexivity.
Defined.

(** ** The port *)

(** Case analysis on the eight bits of a character. *)
Ltac ascii_cases c := destruct c as [[] [] [] [] [] [] [] []].

Lemma digit_radix_10 (c : ascii) :
  is_decimal_digit c = true ->
  Lex.radix_digit 10 c = Some (Z.of_nat (Lex.code c - 48)).
Proof. ascii_cases c; intros H; try discriminate H; reflexivity. Qed.

Lemma non_digit_radix_10 (c : ascii) :
  is_decimal_digit c = false -> Lex.radix_digit 10 c = None.
Proof. ascii_cases c; intros H; try discriminate H; reflexivity. Qed.

Lemma digit_not_white_space (c : ascii) :
  is_decimal_digit c = true -> Lex.is_white_space c = false.
Proof. ascii_cases c; intros H; try discriminate H; reflexivity. Qed.

Lemma digit_not_sign (c : ascii) (r : string) :
  is_decimal_digit c = true -> Lex.split_sign (String c r) = (false, String c r).
Proof. ascii_cases c; intros H; try discriminate H; reflexivity. Qed.

Lemma non_digit_no_hex_prefix (c : ascii) (r : string) :
  is_decimal_digit c = false ->
  strip_hex_prefix (String c r) = (10%Z, String c r).
Proof. ascii_cases c; intros H; try discriminate H; reflexivity. Qed.

Lemma digits_no_hex_prefix (c d : ascii) (r : string) :
  is_decimal_digit d = true ->
  strip_hex_prefix (String c (String d r)) = (10%Z, String c (String d r)).
Proof.
  intros H. unfold strip_hex_prefix.
  ascii_cases c; try reflexivity.
  ascii_cases d; try discriminate H; reflexivity.
Qed.

Lemma span_digits_rest (rest : string) :
  starts_with_digit rest = false -> Lex.span_digits 10 rest = ([], rest).
Proof.
  destruct rest as [|c r]; [reflexivity|]. simpl. intros H.
  now rewrite (non_digit_radix_10 c H).
Qed.

Lemma span_digits_numeral (ds rest : string) :
  all_digits ds = true ->
  starts_with_digit rest = false ->
  Lex.span_digits 10 (ds ++ rest) = (digit_values ds, rest).
Proof.
  intros Hd Hr. induction ds as [|c ds IH].
  - simpl. apply span_digits_rest, Hr.
  - simpl in Hd. apply Bool.andb_true_iff in Hd. destruct Hd as [Hc Hd].
    simpl. rewrite (digit_radix_10 c Hc), (IH Hd). reflexivity.
Qed.

(** [parseInt] reads a decimal numeral in front of anything that does not
    go on with a digit, and yields the number the numeral denotes. *)
Lemma parseInt_numeral_prefix (ds rest : string) :
  is_numeral ds = true ->
  starts_with_digit rest = false ->
  numeral ds <> 0%Z ->
  parseInt (ds ++ rest) = Num.of_Z (numeral ds).
Proof.
  unfold is_numeral. intros Hn Hr Hv.
  apply Bool.andb_true_iff in Hn. destruct Hn as [Hs Hd].
  destruct ds as [|c ds]; [discriminate Hs|]. simpl in Hs.
  assert (Hp : strip_hex_prefix (String c ds ++ rest)
               = (10%Z, (String c ds ++ rest)%string)).
  { destruct ds as [|d ds].
    - (* a single digit: a hex prefix would need the digit 0 *)
      simpl. destruct rest as [|x r].
      + ascii_cases c; try discriminate Hs; reflexivity.
      + ascii_cases c; try discriminate Hs; try reflexivity.
        exfalso. apply Hv. reflexivity.
    - simpl in Hd. apply Bool.andb_true_iff in Hd. destruct Hd as [_ Hd].
      apply Bool.andb_true_iff in Hd. destruct Hd as [Hd _].
      simpl. apply digits_no_hex_prefix, Hd. }
  unfold parseInt.
  change (String c ds ++ rest)%string with (String c (ds ++ rest)) in *.
  cbn [Lex.trim_start]. rewrite (digit_not_white_space c Hs).
  rewrite (digit_not_sign c _ Hs). rewrite Hp.
  change (String c (ds ++ rest)) with (String c ds ++ rest)%string.
  rewrite (span_digits_numeral _ _ Hd Hr). cbn [fst].
  unfold numeral in *.
  destruct (digit_values (String c ds)) eqn:E; [discriminate E|].
  apply Z.eqb_neq in Hv. rewrite Hv. reflexivity.
Qed.

Lemma all_truthy_spec (count : nat) (z k : Z) :
  all_truthy count z = true ->
  (z <= k < z + Z.of_nat count)%Z ->
  ToBoolean (JNum (Num.of_Z k)) = true.
Proof.
  revert z. induction count as [|count IH]; intros z H Hk.
  - lia.
  - cbn [all_truthy] in H. apply Bool.andb_true_iff in H. destruct H as [H0 H].
    destruct (Z.eq_dec k z) as [->|Hne]; [exact H0|].
    apply (IH (z + 1)%Z H). lia.
Qed.

(** Every valid port number is a truthy Number. *)
Lemma port_range_truthy (z : Z) :
  (1 <= z <= 65535)%Z -> ToBoolean (JNum (Num.of_Z z)) = true.
Proof.
  intros Hz.
  apply (all_truthy_spec (Z.to_nat 65535) 1%Z z).
  - vm_compute. reflexivity.
  - rewrite Z2Nat.id by lia. lia.
Qed.

Lemma port_unfold (argv : list string) :
  port argv =
  let n := parseInt_argument (argument argv) in
  if (Num.is_nan n || Num.is_zero n)%bool then default_port else JNum n.
Proof.
  unfold port, js_or. cbn [ToBoolean].
  destruct (Num.is_nan _ || Num.is_zero _)%bool; reflexivity.
Qed.

(** The claim of C5 as it is worded fails at ["80abc"]: not a number, and
    yet it selects port 80. *)
Lemma non_numeric_argument_selects_80 :
  ~ (forall argv,
       argument argv = None \/
       (exists s, argument argv = Some s /\ non_numeric s) ->
       port argv = default_port).
Proof.
  intros H.
  assert (E : port ["node"; "server.js"; "80abc"] = default_port).
  { apply H. right. exists "80abc". split; reflexivity. }
  vm_compute in E. discriminate E.
Qed.

(** The claim of C10 as it is worded fails at ["3000"]: the port is 3000
    and the parse is neither NaN nor 0. *)
Lemma argument_3000_selects_3000 :
  ~ (forall argv,
       port argv = default_port <->
       (Num.is_nan (parseInt_argument (argument argv))
        || Num.is_zero (parseInt_argument (argument argv)))%bool = true).
Proof.
  intros H.
  destruct (H ["node"; "server.js"; "3000"]) as [H1 _].
  specialize (H1 eq_refl). vm_compute in H1. discriminate H1.
Qed.

(** C10, amended. With [n] the integer prefix-parse of the first positional
    argument: the port is [n] whenever [n] is a nonzero number, it is 3000
    whenever [n] is NaN or 0, and it is 3000 in no other case than these and
    [n] = 3000 itself.  A decimal numeral of a valid port followed by
    anything that does not go on with a digit selects that port. *)
Theorem port_parse_or_default (argv : list string) (n : Number) :
  n = parseInt_argument (argument argv) ->
  ((Num.is_nan n || Num.is_zero n)%bool = false -> port argv = JNum n) /\
  ((Num.is_nan n || Num.is_zero n)%bool = true -> port argv = default_port) /\
  (port argv = default_port ->
     (Num.is_nan n || Num.is_zero n)%bool = true \/ n = Num.of_Z 3000) /\
  (forall ds rest : string,
     argument argv = Some (ds ++ rest)%string ->
     is_numeral ds = true ->
     starts_with_digit rest = false ->
     (1 <= numeral ds <= 65535)%Z ->
     port argv = JNum (Num.of_Z (numeral ds))).
Proof.
  intros ->. rewrite port_unfold. cbv zeta.
  split; [|split; [|split]].
  - intros H. rewrite H. reflexivity.
  - intros H. rewrite H. reflexivity.
  - destruct (Num.is_nan _ || Num.is_zero _)%bool eqn:Hb.
    + intros _. left. reflexivity.
    + intros E. right. injection E as E. exact E.
  - intros ds rest Ha Hn Hr Hv. rewrite Ha. cbn [parseInt_argument].
    rewrite (parseInt_numeral_prefix ds rest Hn Hr) by lia.
    pose proof (port_range_truthy (numeral ds) Hv) as Ht.
    cbn [ToBoolean] in Ht. apply Bool.negb_true_iff in Ht. rewrite Ht.
    reflexivity.
Qed.

Lemma port_parse_or_default_witness :
  port ["node"; "server.js"; "80abc"] = JNum (Num.of_Z 80) /\
  port ["node"; "server.js"; "0"] = default_port.
Proof.
  split.
  - destruct (port_parse_or_default ["node"; "server.js"; "80abc"] _ eq_refl)
      as [_ [_ [_ H]]].
    apply (H "80" "abc"); [reflexivity | reflexivity | reflexivity |].
    vm_compute. split; discriminate.
  - destruct (port_parse_or_default ["node"; "server.js"; "0"] _ eq_refl)
      as [_ [H _]].
    apply H. reflexivity.
Defined.

(** * Further properties of the server *)

(** ** The stack as a whole *)

Lemma decode_params_ext (pf pf' : Platform) (caps : list (string * string)) :
  (forall s, decodeURIComponent pf s = decodeURIComponent pf' s) ->
  decode_params pf caps = decode_params pf' caps.
Proof.
  intros H. induction caps as [|[name raw] caps IH]; [reflexivity|].
  simpl. rewrite H, IH. reflexivity.
Qed.

Lemma after_ext (res : HandlerResult) (k k' : option JSValue -> Outcome) :
  (forall e, k e = k' e) -> after res k = after res k'.
Proof.
  intros H. destruct res as [log r|v|]; simpl; [reflexivity| |apply H].
  destruct v as [[| |b|n|s]|l|c ps]; simpl;
    repeat (match goal with |- context [if ?c then _ else _] => destruct c end);
    try apply H; reflexivity.
Qed.

(** Below the static layer the platform counts only through its decoder. *)
Lemma dispatch_ext (pf pf' : Platform) (stack : list Layer)
  (pending : option JSValue) (req : Request) :
  (forall s, decodeURIComponent pf s = decodeURIComponent pf' s) ->
  dispatch pf stack pending req = dispatch pf' stack pending req.
Proof.
  intros H. revert pending.
  induction stack as [|layer rest IH]; intros pending; [reflexivity|].
  cbn [dispatch].
  destruct layer as [mount h|h|route h|h], pending as [err|];
    try apply IH.
  - destruct (mount_matches mount (req_path req)); [|apply IH].
    apply after_ext, IH.
  - apply after_ext, IH.
  - destruct (match_path route (req_path req)) as [caps|]; [|apply IH].
    rewrite (decode_params_ext pf pf' caps H).
    destruct (decode_params pf' caps) as [raw|ps]; [apply IH|].
    destruct (get_handles (req_method req)); [|apply IH].
    apply after_ext, IH.
  - apply after_ext, IH.
Qed.


(** X2. Outside [/static] the static directory plays no part: two platforms
    that decode alike answer alike, whatever files they hold. *)
Theorem static_directory_only_under_mount (pf pf' : Platform) (req : Request) :
  (forall s, decodeURIComponent pf s = decodeURIComponent pf' s) ->
  mount_matches "/static" (req_path req) = false ->
  handle pf req = handle pf' req.
Proof.
  intros Hd Hs. unfold handle, app.
  rewrite !dispatch_static_passes by (left; exact Hs).
  apply dispatch_ext, Hd.
Qed.

Lemma static_directory_only_under_mount_witness :
  handle platform_with_stylesheet (request GET "/list" "" [] "")
  = handle {| express_static := fun _ => PassesOn;
              decodeURIComponent := fun s => Some s |}
           (request GET "/list" "" [] "").
Proof.
  apply static_directory_only_under_mount; [intros s|]; reflexivity.
Defined.

(** ** Paths under [/static] *)

Lemma match_path_segments (route p : string) (segs : list string) :
  path_segments p = Some segs ->
  match_path route p = match_segments (compile_path route) segs.
Proof. unfold match_path. intros ->. reflexivity. Qed.

Lemma dispatch_get_no_path (pf : Platform) (req : Request) (route : string)
  (h : ExpressRequest -> HandlerResult) (rest : list Layer) :
  match_path route (req_path req) = None ->
  dispatch pf (Get route h :: rest) None req = dispatch pf rest None req.
Proof. intros H. cbn [dispatch]. rewrite H. reflexivity. Qed.

Lemma under_static_segments (p : string) :
  mount_matches "/static" p = true ->
  exists s rest, path_segments p = Some (s :: rest) /\ lower s = "static".
Proof.
  unfold mount_matches, path_segments at 2.
  change (path_segments "/static") with (Some ["static"]).
  destruct (split_slash p) as [|x [|s tl]]; try discriminate.
  - destruct x; discriminate.
  - destruct x; [|discriminate]. intros H.
    change (lower "static") with "static" in H.
    apply String.eqb_eq in H. symmetry in H.
    destruct tl as [|y tl].
    + exists s, []. split; [|exact H]. cbn [drop_trailing_empty].
      destruct s; [discriminate H|reflexivity].
    + exists s, (drop_trailing_empty (y :: tl)). split; [reflexivity|exact H].
Qed.

Lemma dispatch_static_under (pf : Platform) (req : Request) (rest : list Layer) :
  mount_matches "/static" (req_path req) = true ->
  dispatch pf (UseAt "/static" (serve_static pf) :: rest) None req
  = match express_static pf req with
    | Serves st data => Answered [] {| status := st; body := Payload data |}
    | PassesOn => dispatch pf rest None req
    | Fails cls props => dispatch pf rest (Some (JObject cls props)) req
    end.
Proof.
  intros H. cbn [dispatch]. rewrite H. unfold serve_static. cbn [bare http].
  destruct (express_static pf req); reflexivity.
Qed.

(** X3. Under [/static] no page route is in reach, and the answer follows
    [express.static]: its own response when it sends one; the not-found
    render call with status 404 when it passes the request on; and, when it
    hands on an error, one log entry for that error and the error render
    call with status 500 and the error's own code, or [unknown_error] when
    that is absent or falsy. *)
Theorem under_static_outcomes (pf : Platform) (req : Request) :
  mount_matches "/static" (req_path req) = true ->
  handle pf req
  = match express_static pf req with
    | Serves st data => Answered [] {| status := st; body := Payload data |}
    | PassesOn => Answered [] not_found_response
    | Fails cls props =>
        Answered [ConsoleErrorStack (JObject cls props)]
                 (error_response (js_or (code_among props) unknown_error))
    end.
Proof.
  intros Hs. unfold handle, app.
  rewrite dispatch_static_under by exact Hs.
  destruct (express_static pf req) as [st data| |cls props].
  - reflexivity.
  - destruct (under_static_segments _ Hs) as [s [rest [Hseg Hl]]].
    repeat (rewrite dispatch_get_no_path;
            [| rewrite (match_path_segments _ _ _ Hseg); simpl;
               rewrite ?Hl; reflexivity]).
    apply dispatch_not_found.
  - answer_pending pf req cls props. reflexivity.
Qed.

Lemma under_static_outcomes_witness :
  handle platform_refusing_range
         (request GET "/static/styles.css" "" [("range", "bytes=99999999-")] "")
  = Answered [ConsoleErrorStack
                (JObject (ClsOther "RangeNotSatisfiableError") range_error)]
             (error_response unknown_error).
Proof.
  exact (under_static_outcomes platform_refusing_range
           (request GET "/static/styles.css" "" [("range", "bytes=99999999-")] "")
           eq_refl).
Defined.

(** ** The name routes *)

Lemma split_slash_segment (a : string) :
  no_slash a = true -> split_slash a = [a].
Proof.
  induction a as [|c a IH]; [reflexivity|]. simpl. intros H.
  apply Bool.andb_true_iff in H. destruct H as [Hc Ha].
  apply Bool.negb_true_iff in Hc. rewrite Hc, (IH Ha). reflexivity.
Qed.

Lemma split_slash_app (a r : string) :
  no_slash a = true ->
  split_slash (a ++ String "/" r) = a :: split_slash r.
Proof.
  induction a as [|c a IH]; [reflexivity|]. simpl. intros H.
  apply Bool.andb_true_iff in H. destruct H as [Hc Ha].
  apply Bool.negb_true_iff in Hc. rewrite Hc, (IH Ha). reflexivity.
Qed.

Lemma is_segment_parts (a : string) :
  is_segment a = true -> no_slash a = true /\ String.eqb a "" = false.
Proof.
  unfold is_segment. intros H. apply Bool.andb_true_iff in H.
  destruct H as [H1 H2]. apply Bool.negb_true_iff in H2. tauto.
Qed.

(** The segments of [/l/a/b] and of [/l/a]. *)
Lemma path_segments_three (l a b : string) :
  no_slash l = true -> is_segment a = true -> is_segment b = true ->
  split_slash (String "/" (l ++ String "/" (a ++ String "/" b)))
  = [EmptyString; l; a; b] /\
  path_segments (String "/" (l ++ String "/" (a ++ String "/" b)))
  = Some [l; a; b].
Proof.
  intros Hl Ha Hb.
  destruct (is_segment_parts a Ha) as [Ha1 Ha2].
  destruct (is_segment_parts b Hb) as [Hb1 Hb2].
  assert (E : split_slash (String "/" (l ++ String "/" (a ++ String "/" b)))
              = [EmptyString; l; a; b]).
  { cbn [split_slash]. change (Ascii.eqb "/" "/") with true. cbv iota.
    rewrite (split_slash_app l _ Hl), (split_slash_app a _ Ha1),
      (split_slash_segment b Hb1). reflexivity. }
  split; [exact E|]. unfold path_segments. rewrite E.
  cbn [drop_trailing_empty]. rewrite Hb2. reflexivity.
Qed.

Lemma path_segments_two (l a : string) :
  no_slash l = true -> is_segment a = true ->
  split_slash (String "/" (l ++ String "/" a)) = [EmptyString; l; a] /\
  path_segments (String "/" (l ++ String "/" a)) = Some [l; a].
Proof.
  intros Hl Ha. destruct (is_segment_parts a Ha) as [Ha1 Ha2].
  assert (E : split_slash (String "/" (l ++ String "/" a))
              = [EmptyString; l; a]).
  { cbn [split_slash]. change (Ascii.eqb "/" "/") with true. cbv iota.
    rewrite (split_slash_app l _ Hl), (split_slash_segment a Ha1).
    reflexivity. }
  split; [exact E|]. unfold path_segments. rewrite E.
  cbn [drop_trailing_empty]. rewrite Ha2. reflexivity.
Qed.

Lemma dispatch_static_elsewhere (pf : Platform) (req : Request)
  (rest : list Layer) (l : string) (segs : list string) :
  split_slash (req_path req) = EmptyString :: l :: segs ->
  String.eqb "static" (lower l) = false ->
  dispatch pf (UseAt "/static" (serve_static pf) :: rest) None req
  = dispatch pf rest None req.
Proof.
  intros Hp Hl. apply dispatch_static_passes. left.
  unfold mount_matches. change (path_segments "/static") with (Some ["static"]).
  rewrite Hp. exact Hl.
Qed.

(** One step of the dispatch at a route whose path fits, parameters decode
    and method is answered. *)
Lemma dispatch_get_runs (pf : Platform) (req : Request) (route : string)
  (h : ExpressRequest -> HandlerResult) (rest : list Layer)
  (segs : list string) (caps ps : list (string * string)) :
  path_segments (req_path req) = Some segs ->
  match_segments (compile_path route) segs = Some caps ->
  decode_params pf caps = inr ps ->
  get_handles (req_method req) = true ->
  dispatch pf (Get route h :: rest) None req
  = after (h {| http := req; params := ps |})
          (fun e => dispatch pf rest e req).
Proof.
  intros Hseg Hm Hd Hg. cbn [dispatch].
  rewrite (match_path_segments _ _ _ Hseg), Hm, Hd, Hg. reflexivity.
Qed.

Lemma dispatch_get_undecodable (pf : Platform) (req : Request) (route : string)
  (h : ExpressRequest -> HandlerResult) (rest : list Layer)
  (segs : list string) (caps : list (string * string)) (raw : string) :
  path_segments (req_path req) = Some segs ->
  match_segments (compile_path route) segs = Some caps ->
  decode_params pf caps = inl raw ->
  dispatch pf (Get route h :: rest) None req
  = dispatch pf rest (Some (decode_failure raw)) req.
Proof.
  intros Hseg Hm Hd. cbn [dispatch].
  rewrite (match_path_segments _ _ _ Hseg), Hm, Hd. reflexivity.
Qed.

Ltac pass_routes Hseg :=
  repeat (rewrite dispatch_get_no_path;
          [| rewrite (match_path_segments _ _ _ Hseg); reflexivity]).

(** X5. The two name routes hand the two path segments to the view as they
    decode, as strings: for every pair of non-empty segments [a] and [b]
    that decode to [a'] and [b'], [/saymyname/a/b] renders [say-name] with
    status 200 and exactly [fname = a'] and [lname = b'], and
    [/saymyname2/a/b] renders the same names with the alternate layout. *)
Theorem name_routes_pass_segments (pf : Platform) (m : Method)
  (q : string) (hd : list (string * string)) (body : string)
  (a b a' b' : string) :
  get_handles m = true ->
  is_segment a = true ->
  is_segment b = true ->
  decodeURIComponent pf a = Some a' ->
  decodeURIComponent pf b = Some b' ->
  handle pf (request m ("/saymyname/" ++ a ++ "/" ++ b) q hd body)
  = Answered [] {| status := 200;
                   body := View "say-name"
                             [("fname", JStr a'); ("lname", JStr b')] |} /\
  handle pf (request m ("/saymyname2/" ++ a ++ "/" ++ b) q hd body)
  = Answered [] {| status := 200;
                   body := View "say-name"
                             [("layout", JStr "alternate.handlebars");
                              ("fname", JStr a'); ("lname", JStr b')] |}.
Proof.
  intros Hg Ha Hb Hda Hdb.
  destruct (is_segment_parts a Ha) as [_ Ha2].
  destruct (is_segment_parts b Hb) as [_ Hb2].
  assert (Hd : decode_params pf [("fname", a); ("lname", b)]
               = inr [("fname", a'); ("lname", b')]).
  { simpl. rewrite Hda, Hdb. reflexivity. }
  split.
  - destruct (path_segments_three "saymyname" a b eq_refl Ha Hb) as [Hsp Hseg].
    set (req := request m ("/saymyname/" ++ a ++ "/" ++ b) q hd body).
    change (split_slash (req_path req) = [EmptyString; "saymyname"; a; b]) in Hsp.
    change (path_segments (req_path req) = Some ["saymyname"; a; b]) in Hseg.
    unfold handle, app.
    rewrite (dispatch_static_elsewhere pf req _ _ _ Hsp eq_refl).
    pass_routes Hseg.
    assert (Hm : match_segments (compile_path "/saymyname/:fname/:lname")
                                ["saymyname"; a; b]
                 = Some [("fname", a); ("lname", b)]).
    { change (compile_path "/saymyname/:fname/:lname")
        with [Lit "saymyname"; Param "fname"; Param "lname"].
      cbn [match_segments]. rewrite Ha2, Hb2. reflexivity. }
    rewrite (dispatch_get_runs pf req _ _ _ _ _ _ Hseg Hm Hd Hg).
    reflexivity.
  - destruct (path_segments_three "saymyname2" a b eq_refl Ha Hb) as [Hsp Hseg].
    set (req := request m ("/saymyname2/" ++ a ++ "/" ++ b) q hd body).
    change (split_slash (req_path req) = [EmptyString; "saymyname2"; a; b]) in Hsp.
    change (path_segments (req_path req) = Some ["saymyname2"; a; b]) in Hseg.
    unfold handle, app.
    rewrite (dispatch_static_elsewhere pf req _ _ _ Hsp eq_refl).
    pass_routes Hseg.
    assert (Hm : match_segments (compile_path "/saymyname2/:fname/:lname")
                                ["saymyname2"; a; b]
                 = Some [("fname", a); ("lname", b)]).
    { change (compile_path "/saymyname2/:fname/:lname")
        with [Lit "saymyname2"; Param "fname"; Param "lname"].
      cbn [match_segments]. rewrite Ha2, Hb2. reflexivity. }
    rewrite (dispatch_get_runs pf req _ _ _ _ _ _ Hseg Hm Hd Hg).
    reflexivity.
Qed.

Lemma name_routes_pass_segments_witness :
  handle platform_with_stylesheet
         (request GET "/saymyname/42/true" "" [] "")
  = Answered [] {| status := 200;
                   body := View "say-name"
                             [("fname", JStr "42"); ("lname", JStr "true")] |}.
Proof.
  apply (name_routes_pass_segments platform_with_stylesheet GET "" [] ""
           "42" "true" "42" "true"); reflexivity.
Defined.

(** X6. A name route asked with one name only is not found: for every
    non-empty segment [a], [/saymyname/a] and [/saymyname2/a] get status 404
    and the not-found page, under every method; no error is raised and
    nothing is decoded. *)
Theorem name_routes_need_both_names (pf : Platform) (m : Method)
  (q : string) (hd : list (string * string)) (body : string) (a : string) :
  is_segment a = true ->
  handle pf (request m ("/saymyname/" ++ a) q hd body)
  = Answered [] not_found_response /\
  handle pf (request m ("/saymyname2/" ++ a) q hd body)
  = Answered [] not_found_response.
Proof.
  intros Ha. destruct (is_segment_parts a Ha) as [_ Ha2]. split.
  - destruct (path_segments_two "saymyname" a eq_refl Ha) as [Hsp Hseg].
    set (req := request m ("/saymyname/" ++ a) q hd body).
    change (split_slash (req_path req) = [EmptyString; "saymyname"; a]) in Hsp.
    change (path_segments (req_path req) = Some ["saymyname"; a]) in Hseg.
    unfold handle, app.
    rewrite (dispatch_static_elsewhere pf req _ _ _ Hsp eq_refl).
    repeat (rewrite dispatch_get_no_path;
            [| rewrite (match_path_segments _ _ _ Hseg);
               try reflexivity;
               change (compile_path "/saymyname/:fname/:lname")
                 with [Lit "saymyname"; Param "fname"; Param "lname"];
               cbn [match_segments]; rewrite Ha2; reflexivity]).
    apply dispatch_not_found.
  - destruct (path_segments_two "saymyname2" a eq_refl Ha) as [Hsp Hseg].
    set (req := request m ("/saymyname2/" ++ a) q hd body).
    change (split_slash (req_path req) = [EmptyString; "saymyname2"; a]) in Hsp.
    change (path_segments (req_path req) = Some ["saymyname2"; a]) in Hseg.
    unfold handle, app.
    rewrite (dispatch_static_elsewhere pf req _ _ _ Hsp eq_refl).
    repeat (rewrite dispatch_get_no_path;
            [| rewrite (match_path_segments _ _ _ Hseg);
               try reflexivity;
               change (compile_path "/saymyname2/:fname/:lname")
                 with [Lit "saymyname2"; Param "fname"; Param "lname"];
               cbn [match_segments]; rewrite Ha2; reflexivity]).
    apply dispatch_not_found.
Qed.

Lemma name_routes_need_both_names_witness :
  handle platform_with_stylesheet (request GET "/saymyname/John" "" [] "")
  = Answered [] not_found_response.
Proof.
  apply (name_routes_need_both_names platform_with_stylesheet GET "" [] ""
           "John"). reflexivity.
Defined.

(** X7. A name that does not decode is a server error, under every method:
    for non-empty segments [a] and [b] of which the first to fail decoding
    is [raw], [/saymyname/a/b] logs Express's decoding failure for [raw] and
    answers status 500 with the error page and code [unknown_error]. *)
Theorem name_route_undecodable (pf : Platform) (m : Method)
  (q : string) (hd : list (string * string)) (body : string)
  (a b raw : string) :
  is_segment a = true ->
  is_segment b = true ->
  decode_params pf [("fname", a); ("lname", b)] = inl raw ->
  handle pf (request m ("/saymyname/" ++ a ++ "/" ++ b) q hd body)
  = Answered [ConsoleErrorStack (decode_failure raw)]
             (error_response unknown_error).
Proof.
  intros Ha Hb Hd.
  destruct (is_segment_parts a Ha) as [_ Ha2].
  destruct (is_segment_parts b Hb) as [_ Hb2].
  destruct (path_segments_three "saymyname" a b eq_refl Ha Hb) as [Hsp Hseg].
  set (req := request m ("/saymyname/" ++ a ++ "/" ++ b) q hd body).
  change (split_slash (req_path req) = [EmptyString; "saymyname"; a; b]) in Hsp.
  change (path_segments (req_path req) = Some ["saymyname"; a; b]) in Hseg.
  unfold handle, app.
  rewrite (dispatch_static_elsewhere pf req _ _ _ Hsp eq_refl).
  pass_routes Hseg.
  assert (Hm : match_segments (compile_path "/saymyname/:fname/:lname")
                              ["saymyname"; a; b]
               = Some [("fname", a); ("lname", b)]).
  { change (compile_path "/saymyname/:fname/:lname")
      with [Lit "saymyname"; Param "fname"; Param "lname"].
    cbn [match_segments]. rewrite Ha2, Hb2. reflexivity. }
  rewrite (dispatch_get_undecodable pf req _ _ _ _ _ _ Hseg Hm Hd).
  reflexivity.
Qed.

Lemma name_route_undecodable_witness :
  handle platform_rejecting_escape
         (request GET "/saymyname/John/%E0" "" [] "")
  = Answered [ConsoleErrorStack (decode_failure "%E0")]
             (error_response unknown_error).
Proof.
  apply (name_route_undecodable platform_rejecting_escape GET "" [] ""
           "John" "%E0" "%E0"); reflexivity.
Defined.

(** ** Rounding an integer never loses its sign or its being nonzero *)

Module FloatFacts.

Local Open Scope Z_scope.

Lemma shr_1_m (mrs : shr_record) :
  0 <= shr_m mrs -> shr_m (shr_1 mrs) = shr_m mrs / 2.
Proof.
  destruct mrs as [m r s]. simpl. intros H.
  destruct m as [|p|p]; [reflexivity| |lia].
  destruct p as [p|p|]; simpl.
  - apply Z.div_unique with (r := 1); lia.
  - apply Z.div_unique with (r := 0); lia.
  - reflexivity.
Qed.

Lemma pow2_xI (p : positive) : 2 ^ Z.pos p~1 = 2 * 2 ^ Z.pos p * 2 ^ Z.pos p.
Proof.
  assert (E : Z.pos p~1 = 1 + Z.pos p + Z.pos p) by lia.
  rewrite E, !Z.pow_add_r by lia. reflexivity.
Qed.

Lemma pow2_xO (p : positive) : 2 ^ Z.pos p~0 = 2 ^ Z.pos p * 2 ^ Z.pos p.
Proof.
  assert (E : Z.pos p~0 = Z.pos p + Z.pos p) by lia.
  rewrite E, !Z.pow_add_r by lia. reflexivity.
Qed.

Lemma iter_pos_shr_m (p : positive) (mrs : shr_record) :
  0 <= shr_m mrs ->
  shr_m (iter_pos shr_1 p mrs) = shr_m mrs / 2 ^ Zpos p.
Proof.
  revert mrs. induction p as [p IH|p IH|]; intros mrs H; simpl iter_pos.
  - assert (Hp : 0 < 2 ^ Z.pos p) by (apply Z.pow_pos_nonneg; lia).
    assert (H1 : 0 <= shr_m (shr_1 mrs)).
    { rewrite shr_1_m by exact H. apply Z.div_pos; lia. }
    assert (H2 : 0 <= shr_m (iter_pos shr_1 p (shr_1 mrs))).
    { rewrite IH by exact H1. apply Z.div_pos; lia. }
    rewrite IH by exact H2. rewrite IH by exact H1. rewrite shr_1_m by exact H.
    rewrite pow2_xI, !Z.div_div by lia. f_equal. lia.
  - assert (Hp : 0 < 2 ^ Z.pos p) by (apply Z.pow_pos_nonneg; lia).
    assert (H2 : 0 <= shr_m (iter_pos shr_1 p mrs)).
    { rewrite IH by exact H. apply Z.div_pos; lia. }
    rewrite IH by exact H2. rewrite IH by exact H.
    rewrite pow2_xO, !Z.div_div by lia. f_equal.
  - rewrite shr_1_m by exact H. reflexivity.
Qed.

Lemma digits2_pos_lower (p : positive) :
  2 ^ (Zpos (digits2_pos p) - 1) <= Zpos p.
Proof.
  induction p as [p IH|p IH|]; simpl digits2_pos.
  - rewrite Pos2Z.inj_succ.
    replace (Z.succ (Z.pos (digits2_pos p)) - 1) with (Z.succ (Z.pos (digits2_pos p) - 1)) by lia.
    rewrite Z.pow_succ_r by lia. lia.
  - rewrite Pos2Z.inj_succ.
    replace (Z.succ (Z.pos (digits2_pos p)) - 1) with (Z.succ (Z.pos (digits2_pos p) - 1)) by lia.
    rewrite Z.pow_succ_r by lia. lia.
  - simpl. lia.
Qed.

Lemma shr_record_of_loc_m m l : shr_m (shr_record_of_loc m l) = m.
Proof. destruct l as [|[]]; reflexivity. Qed.

Lemma shr_fexp_pos (m e : Z) (l : location) :
  0 < m -> -1074 <= e ->
  0 < shr_m (fst (shr_fexp 53 1024 m e l)) /\ -1074 <= snd (shr_fexp 53 1024 m e l).
Proof.
  intros Hm He. unfold shr_fexp, shr.
  destruct m as [|p|p]; try lia. cbn [Zdigits2].
  unfold fexp, emin.
  set (d := Z.pos (digits2_pos p)).
  assert (Hd : 2 ^ (d - 1) <= Z.pos p) by apply digits2_pos_lower.
  assert (Hd1 : 1 <= d) by (unfold d; lia).
  destruct (Z.max (d + e - 53) (3 - 1024 - 53) - e) as [|n|n] eqn:En; cbn [fst snd].
  - rewrite shr_record_of_loc_m. lia.
  - rewrite iter_pos_shr_m by (rewrite shr_record_of_loc_m; lia).
    rewrite shr_record_of_loc_m. split; [|lia].
    apply Z.div_str_pos. split; [apply Z.pow_pos_nonneg; lia|].
    apply Z.le_trans with (2 ^ (d - 1)); [|exact Hd].
    apply Z.pow_le_mono_r; lia.
  - rewrite shr_record_of_loc_m. lia.
Qed.

Lemma round_nearest_even_pos m l : 0 < m -> 0 < round_nearest_even m l.
Proof.
  intros H. destruct l as [|[]]; simpl; try lia.
  destruct (Z.even m); lia.
Qed.

Lemma binary_round_aux_pos (sx : bool) (m e : Z) (l : location) :
  0 < m -> -1074 <= e ->
  match binary_round_aux 53 1024 sx m e l with
  | S754_finite s _ _ | S754_infinity s => s = sx
  | _ => False
  end.
Proof.
  intros Hm He. unfold binary_round_aux.
  destruct (shr_fexp_pos m e l Hm He) as [H1 H2].
  destruct (shr_fexp 53 1024 m e l) as [mrs' e']. cbn [fst snd] in *.
  pose proof (round_nearest_even_pos (shr_m mrs') (loc_of_shr_record mrs') H1) as H3.
  destruct (shr_fexp_pos _ e' loc_Exact H3 H2) as [H4 _].
  destruct (shr_fexp 53 1024 _ e' loc_Exact) as [mrs'' e'']. cbn [fst] in H4.
  destruct (shr_m mrs'') as [|q|q]; try lia.
  destruct (e'' <=? 1024 - 53); reflexivity.
Qed.

Lemma binary_round_pos (sx : bool) (p : positive) :
  match binary_round 53 1024 sx p 0 with
  | S754_finite s _ _ | S754_infinity s => s = sx
  | _ => False
  end.
Proof.
  unfold binary_round.
  destruct (shl_align p 0 (fexp 53 1024 (Z.pos (digits2_pos p) + 0))) as [mz ez] eqn:E.
  apply binary_round_aux_pos; [lia|].
  unfold shl_align in E.
  destruct (fexp 53 1024 (Z.pos (digits2_pos p) + 0) - 0) eqn:F; injection E as <- <-; try lia.
  unfold fexp, emin. lia.
Qed.

End FloatFacts.

Lemma of_Z_finite_or_infinite (z : Z) :
  z <> 0%Z ->
  match Num.of_Z z with
  | S754_finite _ _ _ | S754_infinity _ => True
  | _ => False
  end.
Proof.
  intros Hz. unfold Num.of_Z, binary_normalize, Num.prec, Num.emax.
  destruct z as [|p|p]; [contradiction| |].
  - pose proof (FloatFacts.binary_round_pos false p) as H.
    destruct (binary_round 53 1024 false p 0); tauto.
  - pose proof (FloatFacts.binary_round_pos true p) as H.
    destruct (binary_round 53 1024 true p 0); tauto.
Qed.

Lemma of_Z_truthy (z : Z) :
  z <> 0%Z -> ToBoolean (JNum (Num.of_Z z)) = true.
Proof.
  intros Hz. pose proof (of_Z_finite_or_infinite z Hz) as H.
  cbn [ToBoolean]. destruct (Num.of_Z z); try contradiction; reflexivity.
Qed.

Lemma of_Z_not_nan (z : Z) : Num.is_nan (Num.of_Z z) = false.
Proof.
  destruct (Z.eq_dec z 0) as [->|Hz]; [reflexivity|].
  pose proof (of_Z_finite_or_infinite z Hz) as H.
  destruct (Num.of_Z z); try contradiction; reflexivity.
Qed.

Lemma num_eqb_refl (x : Number) : Num.is_nan x = false -> Num.eqb x x = true.
Proof.
  unfold Num.eqb, SFeqb, SFcompare.
  destruct x as [s|s| |s m e]; simpl; intros H; try discriminate H;
    try reflexivity.
  - destruct s; reflexivity.
  - rewrite Z.compare_refl.
    change (Pos.compare_cont Eq m m) with (Pos.compare m m).
    rewrite Pos.compare_refl. destruct s; reflexivity.
Qed.

Lemma num_eqb_sym (x y : Number) : Num.eqb x y = Num.eqb y x.
Proof.
  unfold Num.eqb, SFeqb, SFcompare.
  destruct x as [s|s| |s m e], y as [s'|s'| |s' m' e']; try reflexivity;
    try (destruct s; reflexivity); try (destruct s'; reflexivity);
    try (destruct s, s'; reflexivity).
  change (Pos.compare_cont Eq m m') with (Pos.compare m m').
  change (Pos.compare_cont Eq m' m) with (Pos.compare m' m).
  rewrite (Z.compare_antisym e e'), (Pos.compare_antisym m m').
  destruct s, s'; try reflexivity;
    destruct (e ?= e')%Z; simpl; try reflexivity;
    destruct (m ?= m')%positive; reflexivity.
Qed.

(** ** More on the port *)

(** X8. The port is never 0 and never NaN: whatever the command line, the
    server asks for a definite port. *)
Theorem port_never_zero_or_nan (argv : list string) :
  exists n, port argv = JNum n /\ Num.is_nan n = false /\ Num.is_zero n = false.
Proof.
  rewrite port_unfold. cbv zeta.
  destruct (Num.is_nan _ || Num.is_zero _)%bool eqn:E.
  - eexists. split; [reflexivity|]. split; reflexivity.
  - apply Bool.orb_false_iff in E. eexists. split; [reflexivity|exact E].
Qed.

Lemma trim_start_white (ws s : string) :
  all_white ws = true -> Lex.trim_start (ws ++ s) = Lex.trim_start s.
Proof.
  induction ws as [|c ws IH]; [reflexivity|]. simpl. intros H.
  apply Bool.andb_true_iff in H. destruct H as [Hc Hw].
  rewrite Hc. apply IH, Hw.
Qed.

Lemma parseInt_leading_white (ws s : string) :
  all_white ws = true -> parseInt (ws ++ s) = parseInt s.
Proof.
  intros H. unfold parseInt. rewrite (trim_start_white ws s H). reflexivity.
Qed.

Lemma parseInt_plus (s : string) :
  starts_with_digit s = true -> parseInt (String "+" s) = parseInt s.
Proof.
  destruct s as [|c r]; [discriminate|]. simpl starts_with_digit. intros H.
  change (parseInt (String "+" (String c r)))
    with (let '(R, s2) := strip_hex_prefix (String c r) in
          match fst (Lex.span_digits R s2) with
          | [] => Num.nan
          | d :: ds =>
              let mathInt := Lex.digits_value R (d :: ds) in
              if (mathInt =? 0)%Z then S754_zero false
              else Num.of_Z mathInt
          end).
  unfold parseInt. cbn [Lex.trim_start]. rewrite (digit_not_white_space c H).
  rewrite (digit_not_sign c r H). reflexivity.
Qed.

(** X9. Leading white space and a plus sign in front of the number change
    nothing: the argument [ws ++ "+" ++ s], and [ws ++ s], select the port
    that [s] selects. *)
Theorem port_ignores_space_and_plus (argv argv' : list string) (ws s : string) :
  all_white ws = true ->
  starts_with_digit s = true ->
  argument argv = Some (ws ++ "+" ++ s)%string \/
  argument argv = Some (ws ++ s)%string ->
  argument argv' = Some s ->
  port argv = port argv'.
Proof.
  intros Hw Hs Ha Ha'. unfold port. rewrite Ha'.
  destruct Ha as [Ha|Ha]; rewrite Ha; cbn [parseInt_argument];
    rewrite (parseInt_leading_white ws _ Hw); [|reflexivity].
  change ("+" ++ s)%string with (String "+" s).
  rewrite (parseInt_plus s Hs). reflexivity.
Qed.

Lemma port_ignores_space_and_plus_witness :
  port ["node"; "server.js"; "  +8080"] = port ["node"; "server.js"; "8080"].
Proof.
  apply (port_ignores_space_and_plus _ _ "  " "8080");
    [reflexivity | reflexivity | left; reflexivity | reflexivity].
Defined.

Lemma numeral_no_hex_prefix (ds rest : string) :
  is_numeral ds = true ->
  numeral ds <> 0%Z ->
  strip_hex_prefix (ds ++ rest) = (10%Z, (ds ++ rest)%string).
Proof.
  unfold is_numeral. intros Hn Hv.
  apply Bool.andb_true_iff in Hn. destruct Hn as [Hs Hd].
  destruct ds as [|c ds]; [discriminate Hs|]. simpl in Hs.
  destruct ds as [|d ds].
  - simpl. destruct rest as [|x r].
    + ascii_cases c; try discriminate Hs; reflexivity.
    + ascii_cases c; try discriminate Hs; try reflexivity.
      exfalso. apply Hv. reflexivity.
  - simpl in Hd. apply Bool.andb_true_iff in Hd. destruct Hd as [_ Hd].
    apply Bool.andb_true_iff in Hd. destruct Hd as [Hd _].
    simpl. apply digits_no_hex_prefix, Hd.
Qed.

Lemma parseInt_negative_numeral (ds rest : string) :
  is_numeral ds = true ->
  starts_with_digit rest = false ->
  numeral ds <> 0%Z ->
  parseInt (String "-" (ds ++ rest)) = Num.of_Z (- numeral ds).
Proof.
  intros Hn Hr Hv.
  change (parseInt (String "-" (ds ++ rest)))
    with (let '(R, s2) := strip_hex_prefix (ds ++ rest) in
          match fst (Lex.span_digits R s2) with
          | [] => Num.nan
          | d :: r =>
              let mathInt := Lex.digits_value R (d :: r) in
              if (mathInt =? 0)%Z then S754_zero true
              else Num.of_Z (- mathInt)
          end).
  rewrite (numeral_no_hex_prefix ds rest Hn Hv).
  unfold is_numeral in Hn. apply Bool.andb_true_iff in Hn.
  destruct Hn as [Hs Hd].
  rewrite (span_digits_numeral _ _ Hd Hr). cbn [fst]. unfold numeral in *.
  destruct ds as [|c ds]; [discriminate Hs|].
  destruct (digit_values (String c ds)) eqn:E; [discriminate E|].
  apply Z.eqb_neq in Hv. rewrite Hv. reflexivity.
Qed.

(** X10. The port is not range-checked: an argument that begins with a
    decimal numeral of nonzero value [n], however large, selects port [n],
    and one that begins with a minus sign and such a numeral selects the
    negative port [-n]. *)
Theorem port_not_range_checked (argv : list string) (ds rest : string) :
  is_numeral ds = true ->
  starts_with_digit rest = false ->
  numeral ds <> 0%Z ->
  (argument argv = Some (ds ++ rest)%string ->
   port argv = JNum (Num.of_Z (numeral ds))) /\
  (argument argv = Some ("-" ++ ds ++ rest)%string ->
   port argv = JNum (Num.of_Z (- numeral ds))).
Proof.
  intros Hn Hr Hv. split; intros Ha; unfold port, js_or; rewrite Ha;
    cbn [parseInt_argument].
  - rewrite (parseInt_numeral_prefix ds rest Hn Hr Hv).
    rewrite (of_Z_truthy _ Hv). reflexivity.
  - change ("-" ++ ds ++ rest)%string with (String "-" (ds ++ rest)).
    rewrite (parseInt_negative_numeral ds rest Hn Hr Hv).
    rewrite of_Z_truthy by lia. reflexivity.
Qed.

Lemma port_not_range_checked_witness :
  port ["node"; "server.js"; "70000"] = JNum (Num.of_Z 70000) /\
  port ["node"; "server.js"; "-80"] = JNum (Num.of_Z (-80)).
Proof.
  destruct (port_not_range_checked ["node"; "server.js"; "70000"]
              "70000" "" eq_refl eq_refl) as [H _].
  { vm_compute. discriminate. }
  destruct (port_not_range_checked ["node"; "server.js"; "-80"]
              "80" "" eq_refl eq_refl) as [_ H'].
  { vm_compute. discriminate. }
  split; [apply H | apply H']; reflexivity.
Defined.

Lemma hex_digit_radix_16 (c : ascii) :
  is_hex_digit c = true -> Lex.radix_digit 16 c = Some (hex_digit_value c).
Proof. ascii_cases c; intros H; try discriminate H; reflexivity. Qed.

Lemma non_hex_digit_radix_16 (c : ascii) :
  is_hex_digit c = false -> Lex.radix_digit 16 c = None.
Proof.
  unfold is_hex_digit. destruct (Lex.radix_digit 16 c); [discriminate|reflexivity].
Qed.

Lemma span_hex_digits (hs rest : string) :
  all_hex_digits hs = true ->
  starts_with_hex_digit rest = false ->
  Lex.span_digits 16 (hs ++ rest) = (hex_digit_values hs, rest).
Proof.
  intros Hd Hr. induction hs as [|c hs IH].
  - simpl. destruct rest as [|x r]; [reflexivity|]. simpl in *.
    now rewrite (non_hex_digit_radix_16 x Hr).
  - simpl in Hd. apply Bool.andb_true_iff in Hd. destruct Hd as [Hc Hd].
    simpl. rewrite (hex_digit_radix_16 c Hc), (IH Hd). reflexivity.
Qed.

(** X11. A hexadecimal argument is read as such: [0x] or [0X] followed by
    hexadecimal digits of nonzero value [n], and then anything that does not
    go on with a hexadecimal digit, selects port [n]. *)
Theorem port_reads_hexadecimal (argv : list string) (hs rest : string) :
  starts_with_hex_digit hs = true ->
  all_hex_digits hs = true ->
  starts_with_hex_digit rest = false ->
  hex_numeral hs <> 0%Z ->
  argument argv = Some ("0x" ++ hs ++ rest)%string \/
  argument argv = Some ("0X" ++ hs ++ rest)%string ->
  port argv = JNum (Num.of_Z (hex_numeral hs)).
Proof.
  intros Hs Hd Hr Hv Ha.
  assert (E : parseInt_argument (argument argv) = Num.of_Z (hex_numeral hs)).
  { assert (Hbody :
      match fst (Lex.span_digits 16 (hs ++ rest)) with
      | [] => Num.nan
      | d :: r =>
          let mathInt := Lex.digits_value 16 (d :: r) in
          if (mathInt =? 0)%Z then S754_zero false else Num.of_Z mathInt
      end = Num.of_Z (hex_numeral hs)).
    { rewrite (span_hex_digits _ _ Hd Hr). cbn [fst]. unfold hex_numeral in *.
      destruct hs as [|c hs]; [discriminate Hs|].
      destruct (hex_digit_values (String c hs)) eqn:E; [discriminate E|].
      apply Z.eqb_neq in Hv. cbv zeta. rewrite Hv. reflexivity. }
    destruct Ha as [Ha|Ha]; rewrite Ha; cbn [parseInt_argument]; exact Hbody. }
  unfold port, js_or. rewrite E, (of_Z_truthy _ Hv). reflexivity.
Qed.

Lemma port_reads_hexadecimal_witness :
  port ["node"; "server.js"; "0x1F90"] = JNum (Num.of_Z 8080).
Proof.
  apply (port_reads_hexadecimal _ "1F90" "");
    [reflexivity | reflexivity | reflexivity | | left; reflexivity].
  vm_compute. discriminate.
Defined.

(** ** More on the error middleware *)

Lemma js_or_truthy (a b : JSValue) :
  ToBoolean b = true -> ToBoolean (js_or a b) = true.
Proof. intros H. unfold js_or. destruct (ToBoolean a) eqn:E; assumption. Qed.

(** X12. For every value that reaches it, the error middleware sends one
    response and throws nothing: status 500, the error view, and options
    holding the code and nothing else, so neither the message nor the stack
    is shown; the code shown is never empty or falsy; and the log gets
    exactly one entry, the stack of that value. *)
Theorem error_middleware_shows_code_only (err : JSValue) (req : ExpressRequest) :
  ToBoolean err = true ->
  exists c,
    error_middleware err req
    = Send [ConsoleErrorStack err]
           {| status := 500; body := View "error" [("code", c)] |} /\
    ToBoolean c = true.
Proof.
  intros H. destruct (error_middleware_answers err req H) as [c [_ E]].
  exists (js_or c unknown_error). split; [exact E|].
  apply js_or_truthy. reflexivity.
Qed.

Lemma error_middleware_shows_code_only_witness :
  exists c,
    error_middleware (new_AuthenticationError "User or password does not match")
                     (bare (request GET "/" "" [] ""))
    = Send [ConsoleErrorStack
              (new_AuthenticationError "User or password does not match")]
           {| status := 500; body := View "error" [("code", c)] |} /\
    ToBoolean c = true.
Proof.
  apply error_middleware_shows_code_only. reflexivity.
Defined.

(** X13. A thrown value without a [code] — a string, a number, [true], an
    array, an object that has no such property — is shown as
    [unknown_error]. *)
Theorem error_middleware_without_code (err : JSValue) (req : ExpressRequest) :
  ToBoolean err = true ->
  has_no_code err ->
  error_middleware err req
  = Send [ConsoleErrorStack err] (error_response unknown_error).
Proof.
  intros Ht Hn. unfold error_middleware.
  destruct err as [[| |b|n|s]|l|cls props]; simpl in *;
    try discriminate Ht; try reflexivity.
  rewrite Hn. reflexivity.
Qed.

Lemma error_middleware_without_code_witness :
  error_middleware (JStr "boom") (bare (request GET "/" "" [] ""))
  = Send [ConsoleErrorStack (JStr "boom")] (error_response unknown_error).
Proof.
  apply error_middleware_without_code; [reflexivity | exact I].
Defined.

(** ** More on [equals] *)

(** X14. On two strings, the types its parameters are declared with,
    [equals] is plain string equality: nothing is coerced and nothing is
    thrown. *)
Theorem equals_on_strings (s t : string) :
  equals (Val (PStr s)) (Val (PStr t)) = Some (String.eqb s t) /\
  (equals (Val (PStr s)) (Val (PStr t)) = Some true <-> s = t).
Proof.
  split; [reflexivity|]. unfold equals; simpl. unfold loose_eq_prim; simpl.
  split.
  - intros H. injection H as H. apply String.eqb_eq, H.
  - intros ->. now rewrite String.eqb_refl.
Qed.

Lemma bool_eqb_sym (a b : bool) : Bool.eqb a b = Bool.eqb b a.
Proof. destruct a, b; reflexivity. Qed.

Lemma loose_eq_prim_sym (p q : Primitive) :
  loose_eq_prim p q = loose_eq_prim q p.
Proof.
  destruct p as [| |a|a|a], q as [| |b|b|b]; unfold loose_eq_prim; simpl;
    try reflexivity; try apply num_eqb_sym.
  - apply bool_eqb_sym.
  - apply String.eqb_sym.
Qed.

(** X15. [equals] is symmetric: swapping its arguments changes neither the
    verdict nor whether it throws. *)
Theorem equals_symmetric (a b : Operand) : equals a b = equals b a.
Proof.
  unfold equals.
  destruct a as [p|x cx], b as [q|y cy]; simpl.
  - f_equal. apply loose_eq_prim_sym.
  - destruct p, cy as [q|]; simpl; try reflexivity; f_equal;
      apply loose_eq_prim_sym.
  - destruct q, cx as [p|]; simpl; try reflexivity; f_equal;
      apply loose_eq_prim_sym.
  - f_equal. apply Nat.eqb_sym.
Qed.

(** X16. [equals] throws in one situation only: a boolean, a number or a
    string is compared with an object whose conversion to a primitive
    throws.  Against [undefined], [null] or another object nothing is
    converted and nothing is thrown. *)
Theorem equals_throws_iff (a b : Operand) :
  equals a b = None <->
  (exists p x, (a = Val p /\ b = Ref x None \/ a = Ref x None /\ b = Val p) /\
               p <> PUndefined /\ p <> PNull).
Proof.
  unfold equals. split.
  - destruct a as [p|x cx], b as [q|y cy]; simpl; try discriminate.
    + destruct cy as [q|]; [destruct p; discriminate|].
      destruct p; try discriminate; intros _; eexists; eexists;
        (split; [left; split; reflexivity|split; discriminate]).
    + destruct cx as [p|]; [destruct q; discriminate|].
      destruct q; try discriminate; intros _; eexists; eexists;
        (split; [right; split; reflexivity|split; discriminate]).
  - intros [p [x [[[-> ->]|[-> ->]] [H1 H2]]]]; simpl;
      destruct p; try reflexivity; contradiction.
Qed.

(** X17. [undefined] and [null] equal each other and themselves and nothing
    else: a missing template variable is not equal to [0], to the empty
    string, to [false] or to any object. *)
Theorem equals_nullish (p : Primitive) (b : Operand) :
  p = PUndefined \/ p = PNull ->
  (equals (Val p) b = Some true <-> b = Val PUndefined \/ b = Val PNull) /\
  equals (Val p) b <> None.
Proof.
  intros Hp. unfold equals. split; [split|].
  - destruct Hp as [-> | ->], b as [[| |c|n|s]|y cy]; simpl;
      try (intros H; discriminate H); tauto.
  - intros [-> | ->]; destruct Hp as [-> | ->]; reflexivity.
  - destruct Hp as [-> | ->], b as [q|y cy]; simpl; discriminate.
Qed.

Lemma equals_nullish_witness :
  equals (Val PUndefined) (Val (PNum Num.pos_zero)) <> Some true /\
  equals (Val PUndefined) (Val PNull) = Some true.
Proof.
  split.
  - intros H.
    destruct (proj1 (proj1 (equals_nullish PUndefined (Val (PNum Num.pos_zero))
                              (or_introl eq_refl))) H) as [E|E];
      discriminate E.
  - apply (proj2 (proj1 (equals_nullish PUndefined (Val PNull)
                           (or_introl eq_refl)))).
    right. reflexivity.
Defined.

Lemma trim_end_digits (ds : string) :
  all_digits ds = true -> Lex.trim_end ds = ds.
Proof.
  induction ds as [|c ds IH]; [reflexivity|]. simpl. intros H.
  apply Bool.andb_true_iff in H. destruct H as [Hc Hd].
  rewrite (IH Hd). destruct ds; [|reflexivity].
  now rewrite (digit_not_white_space c Hc).
Qed.

Lemma trim_numeral (ds : string) : is_numeral ds = true -> Lex.trim ds = ds.
Proof.
  unfold is_numeral, Lex.trim. intros H.
  apply Bool.andb_true_iff in H. destruct H as [Hs Hd].
  destruct ds as [|c ds]; [reflexivity|]. simpl in Hs.
  cbn [Lex.trim_start]. rewrite (digit_not_white_space c Hs).
  apply trim_end_digits, Hd.
Qed.

Lemma numeral_not_non_decimal (ds : string) :
  all_digits ds = true -> parse_non_decimal ds = None.
Proof.
  destruct ds as [|c [|d ds]]; [reflexivity| |].
  - intros _. ascii_cases c; reflexivity.
  - simpl. intros H. apply Bool.andb_true_iff in H. destruct H as [_ H].
    apply Bool.andb_true_iff in H. destruct H as [Hd _].
    unfold parse_non_decimal.
    ascii_cases c; try reflexivity.
    ascii_cases d; try discriminate Hd; reflexivity.
Qed.

Lemma numeral_not_infinity (ds : string) :
  starts_with_digit ds = true -> String.eqb ds "Infinity" = false.
Proof.
  destruct ds as [|c ds]; [discriminate|]. simpl.
  ascii_cases c; intros H; try discriminate H; reflexivity.
Qed.

Lemma digits_value_nonneg (ds : list Z) (acc : Z) :
  (0 <= acc)%Z -> Forall (fun d => 0 <= d)%Z ds ->
  (0 <= fold_left (fun a d => a * 10 + d) ds acc)%Z.
Proof.
  intros Ha Hd. revert acc Ha.
  induction Hd as [|d ds Hd0 _ IH]; intros acc Ha; [exact Ha|].
  simpl. apply IH. lia.
Qed.

Lemma numeral_nonneg (ds : string) : (0 <= numeral ds)%Z.
Proof.
  unfold numeral, Lex.digits_value. apply digits_value_nonneg; [lia|].
  induction ds as [|c ds IH]; simpl; constructor; [lia|exact IH].
Qed.

Lemma of_decimal_integer (v : Z) :
  (0 <= v)%Z -> Num.of_decimal false v 0 = Num.of_Z v.
Proof.
  intros Hv. destruct v as [|p|p]; [reflexivity| |lia].
  unfold Num.of_decimal, Num.of_Z, binary_normalize.
  change (0 <=? 0)%Z with true. cbv iota.
  change (10 ^ 0)%Z with 1%Z. rewrite Z.mul_1_r. reflexivity.
Qed.

(** The text of a decimal numeral converts to the number it denotes. *)
Lemma StringToNumber_numeral (ds : string) :
  is_numeral ds = true -> StringToNumber ds = Num.of_Z (numeral ds).
Proof.
  intros Hn. unfold StringToNumber. rewrite (trim_numeral ds Hn).
  unfold is_numeral in Hn. apply Bool.andb_true_iff in Hn.
  destruct Hn as [Hs Hd].
  destruct ds as [|c ds]; [discriminate Hs|].
  rewrite (numeral_not_non_decimal _ Hd).
  simpl in Hs. rewrite (digit_not_sign c ds Hs).
  unfold parse_unsigned_decimal.
  rewrite (numeral_not_infinity (String c ds) Hs).
  pose proof (span_digits_numeral (String c ds) "" Hd eq_refl) as Hsp.
  assert (Happ : (String c ds ++ "")%string = String c ds).
  { clear. induction (String c ds) as [|x s IH]; [reflexivity|].
    simpl. now rewrite IH. }
  rewrite Happ in Hsp. rewrite Hsp. cbn [app parse_exponent].
  rewrite app_nil_r.
  destruct (digit_values (String c ds)) eqn:E; [discriminate E|].
  rewrite <- E. fold (numeral (String c ds)).
  cbn [List.length Z.of_nat]. rewrite Z.sub_0_r.
  apply of_decimal_integer, numeral_nonneg.
Qed.

(** X18. A number equals its decimal text: for every decimal numeral,
    however long, [equals] of the number it denotes and of the numeral as a
    string is true, in either order. *)
Theorem equals_number_and_numeral (ds : string) :
  is_numeral ds = true ->
  equals (Val (PNum (Num.of_Z (numeral ds)))) (Val (PStr ds)) = Some true /\
  equals (Val (PStr ds)) (Val (PNum (Num.of_Z (numeral ds)))) = Some true.
Proof.
  intros Hn. unfold equals; simpl. unfold loose_eq_prim; simpl.
  rewrite (StringToNumber_numeral ds Hn).
  rewrite (num_eqb_refl _ (of_Z_not_nan _)). split; reflexivity.
Qed.

Lemma equals_number_and_numeral_witness :
  equals (Val (PNum (Num.of_Z 2024))) (Val (PStr "2024")) = Some true.
Proof.
  apply (proj1 (equals_number_and_numeral "2024" eq_refl)).
Defined.

Lemma trim_white (ws : string) : all_white ws = true -> Lex.trim ws = "".
Proof.
  intros H. unfold Lex.trim.
  assert (E : Lex.trim_start ws = "").
  { induction ws as [|c ws IH]; [reflexivity|]. simpl in *.
    apply Bool.andb_true_iff in H. destruct H as [Hc Hw].
    rewrite Hc. apply IH, Hw. }
  rewrite E. reflexivity.
Qed.

(** X19. The empty string and every string of white space equal the number
    0 and the boolean [false]. *)
Theorem equals_blank_string (ws : string) :
  all_white ws = true ->
  equals (Val (PStr ws)) (Val (PNum Num.pos_zero)) = Some true /\
  equals (Val (PStr ws)) (Val (PBool false)) = Some true.
Proof.
  intros H. unfold equals; simpl. unfold loose_eq_prim; simpl.
  unfold StringToNumber. rewrite (trim_white ws H). split; reflexivity.
Qed.

Lemma equals_blank_string_witness :
  equals (Val (PStr "  ")) (Val (PBool false)) = Some true.
Proof.
  apply (proj2 (equals_blank_string "  " eq_refl)).
Defined.

(** X20. [equals] is not transitive: the empty string equals 0 and 0 equals
    the string ["0"], but the empty string does not equal ["0"]. *)
Theorem equals_not_transitive :
  ~ (forall a b c : Operand,
       equals a b = Some true -> equals b c = Some true ->
       equals a c = Some true).
Proof.
  intros H.
  specialize (H (Val (PStr "")) (Val (PNum Num.pos_zero)) (Val (PStr "0"))
                eq_refl eq_refl).
  discriminate H.
Qed.

(** ** From the render call to the reply *)






(** A conditional header does change the reply: the same page is sent in
    full, or answered 304 without a body when the validator matches. *)
Lemma conditional_get_not_modified :
  serve platform_with_stylesheet engine_with_validator
        (request GET "/list" "" [] "")
  = Replied [] (Html 200 "list" true) /\
  serve platform_with_stylesheet engine_with_validator
        (request GET "/list" "" [("if-none-match", "list")] "")
  = Replied [] (Bodyless 304) /\
  serve platform_with_stylesheet engine_with_validator
        (request HEAD "/list" "" [] "")
  = Replied [] (Html 200 "list" false).
Proof. repeat split. Qed.

(** *** The render call and the reply *)

Lemma settle_after (en : Engine) (req : Request) (res : HandlerResult)
  (K : option JSValue -> Outcome)
  (k : option JSValue -> list LogEntry -> Delivery)
  (log : list LogEntry) (r : Response) :
  after res K = Answered log r ->
  (forall name options, body r = View name options ->
                        exists html, render_view en name options = inl html) ->
  (forall e, K e = Answered log r -> k e [] = deliver en req (Answered log r)) ->
  settle en req [] res k = deliver en req (Answered log r).
Proof.
  intros Ha Hr Hk. destruct res as [l r0|v|].
  - cbn [after] in Ha. injection Ha as -> ->.
    destruct r as [st [name options|data]]; cbn [settle deliver Datatypes.app].
    + destruct (Hr name options eq_refl) as [html E]. rewrite E. reflexivity.
    + reflexivity.
  - destruct v as [[| |b|n|s]|l|c ps]; cbn [after settle] in Ha |- *;
      repeat (match goal with
              | |- context [if ?c then _ else _] => destruct c
              end);
      try discriminate Ha; apply Hk; exact Ha.
  - apply Hk. exact Ha.
Qed.

Lemma serve_stack_delivers (pf : Platform) (en : Engine) (req : Request)
  (stack : list Layer) (pending : option JSValue)
  (log : list LogEntry) (r : Response) :
  dispatch pf stack pending req = Answered log r ->
  (forall name options, body r = View name options ->
                        exists html, render_view en name options = inl html) ->
  serve_stack pf en stack pending [] req = deliver en req (Answered log r).
Proof.
  intros Hd Hr. revert pending Hd.
  induction stack as [|layer rest IH]; intros pending Hd; [discriminate Hd|].
  cbn [dispatch] in Hd. cbn [serve_stack].
  destruct layer as [mount h|h|route h|h], pending as [err|];
    try (apply IH; exact Hd).
  - destruct (mount_matches mount (req_path req)); [|apply IH; exact Hd].
    eapply settle_after; [exact Hd|exact Hr|intros e He; apply IH; exact He].
  - eapply settle_after; [exact Hd|exact Hr|intros e He; apply IH; exact He].
  - destruct (match_path route (req_path req)) as [caps|];
      [|apply IH; exact Hd].
    destruct (decode_params pf caps) as [raw|ps]; [apply IH; exact Hd|].
    destruct (get_handles (req_method req)); [|apply IH; exact Hd].
    eapply settle_after; [exact Hd|exact Hr|intros e He; apply IH; exact He].
  - eapply settle_after; [exact Hd|exact Hr|intros e He; apply IH; exact He].
Qed.

(** X21. The render calls are what the replies are made of: when the server
    answers a request with a render call and the view engine renders it, the
    reply is that rendering, sent by [res.send] with the status of the call,
    and the log is the same. *)
Theorem render_call_delivered (pf : Platform) (en : Engine) (req : Request)
  (log : list LogEntry) (st : nat) (name : string)
  (options : list (string * JSValue)) (html : string) :
  handle pf req = Answered log {| status := st; body := View name options |} ->
  render_view en name options = inl html ->
  serve pf en req = Replied log (res_send en req st html).
Proof.
  intros H E. unfold serve.
  rewrite (serve_stack_delivers pf en req (app pf) None log _ H).
  - cbn [deliver]. rewrite E. reflexivity.
  - intros n o Hb. injection Hb as <- <-. exists html. exact E.
Qed.

Lemma render_call_delivered_witness :
  serve platform_with_stylesheet engine_with_validator
        (request GET "/saymyname/John/Doe" "" [] "")
  = Replied [] (Html 200 "say-name" true).
Proof.
  exact (render_call_delivered platform_with_stylesheet engine_with_validator
           (request GET "/saymyname/John/Doe" "" [] "")
           [] 200 "say-name"
           [("fname", JStr "John"); ("lname", JStr "Doe")] "say-name"
           eq_refl eq_refl).
Defined.

(** *** The ways a request ends *)

Lemma serve_static_cases (pf : Platform) (en : Engine) (req : Request)
  (rest : list Layer) :
  serve_stack pf en (UseAt "/static" (serve_static pf) :: rest) None [] req
  = if mount_matches "/static" (req_path req)
    then match express_static pf req with
         | Serves st data => Replied [] (File st data)
         | PassesOn => serve_stack pf en rest None [] req
         | Fails cls props =>
             serve_stack pf en rest (Some (JObject cls props)) [] req
         end
    else serve_stack pf en rest None [] req.
Proof.
  cbn [serve_stack].
  destruct (mount_matches "/static" (req_path req)); [|reflexivity].
  unfold serve_static. cbn [bare http].
  destruct (express_static pf req); reflexivity.
Qed.

Lemma serve_get_cases (pf : Platform) (en : Engine) (req : Request)
  (route : string) (h : ExpressRequest -> HandlerResult) (rest : list Layer)
  (log : list LogEntry) :
  serve_stack pf en (Get route h :: rest) None log req
  = serve_stack pf en rest None log req \/
  (exists raw, serve_stack pf en (Get route h :: rest) None log req
               = serve_stack pf en rest (Some (decode_failure raw)) log req) \/
  (exists ps, serve_stack pf en (Get route h :: rest) None log req
              = settle en req log (h {| http := req; params := ps |})
                       (fun e l => serve_stack pf en rest e l req)).
Proof.
  cbn [serve_stack].
  destruct (match_path route (req_path req)) as [caps|]; [|left; reflexivity].
  destruct (decode_params pf caps) as [raw|ps].
  - right. left. exists raw. reflexivity.
  - destruct (get_handles (req_method req)).
    + right. right. exists ps. reflexivity.
    + left. reflexivity.
Qed.

Lemma serve_use_step (pf : Platform) (en : Engine) (req : Request)
  (h : ExpressRequest -> HandlerResult) (rest : list Layer)
  (log : list LogEntry) :
  serve_stack pf en (Use h :: rest) None log req
  = settle en req log (h (bare req))
           (fun e l => serve_stack pf en rest e l req).
Proof. reflexivity. Qed.

(** An error object that is pending passes every layer that is no error
    handler; the error middleware logs it and renders the error page, and
    when that fails no layer is left. *)
Lemma pending_object_served (pf : Platform) (en : Engine) (req : Request)
  (cls : Class) (props : list (string * JSValue)) (stack : list Layer)
  (log : list LogEntry) :
  Forall plain_layer stack ->
  serve_stack pf en (stack ++ [UseError error_middleware])
              (Some (JObject cls props)) log req
  = match render_view en "error"
            [("code", js_or (code_among props) unknown_error)] with
    | inl html =>
        Replied (log ++ [ConsoleErrorStack (JObject cls props)])
                (Html 500 html (negb (is_head (req_method req))))
    | inr (cls', props') =>
        LeftToExpress (log ++ [ConsoleErrorStack (JObject cls props)])
                      (Some (JObject cls' props'))
    end.
Proof.
  induction 1 as [|layer stack Hl _ IH].
  - cbn [Datatypes.app serve_stack].
    unfold error_middleware, get_code, code_among.
    destruct (lookup "code" props); cbn [settle];
      match goal with
      | |- context [render_view en ?n ?o] =>
          destruct (render_view en n o) as [html|[cls' props']]
      end; reflexivity.
  - cbn [Datatypes.app serve_stack]. destruct layer; try contradiction; exact IH.
Qed.

Lemma failure_outcome (pf : Platform) (en : Engine) (req : Request)
  (cls : Class) (props : list (string * JSValue)) (stack : list Layer) :
  collaborator_failure pf en req (JObject cls props) ->
  Forall plain_layer stack ->
  ServeOutcome pf en req
    (serve_stack pf en (stack ++ [UseError error_middleware])
                 (Some (JObject cls props)) [] req).
Proof.
  intros Hc Hs. rewrite pending_object_served by exact Hs.
  cbn [Datatypes.app].
  destruct (render_view en "error"
              [("code", js_or (code_among props) unknown_error)])
    as [html|[cls' props']] eqn:E.
  - apply ErrorPage; assumption.
  - apply NoErrorPage; assumption.
Qed.

(** Settles a goal about a listed stack under a pending error object, up
    to the origin of the error. *)
Ltac fails_here :=
  match goal with
  | |- ServeOutcome ?pf ?en ?req
         (serve_stack ?pf ?en ?stack (Some (JObject ?cls ?props)) [] ?req) =>
      let mid := eval cbn [removelast] in (removelast stack) in
      change stack with (mid ++ [UseError error_middleware]);
      apply failure_outcome;
      [ | repeat (apply Forall_cons; [exact I|]); apply Forall_nil ]
  end.

(** Settles a goal at a render call: the page when the view renders, the
    error page or Express's final handler when it does not. *)
Ltac renders_here page :=
  cbn [settle];
  match goal with
  | |- context [render_view ?en ?n ?o] =>
      let Er := fresh "Er" in
      destruct (render_view en n o) as [?html|[?cls ?props]] eqn:Er;
      cbn beta; cbn [Datatypes.app];
      [ page Er
      | fails_here; right; right;
        eexists; eexists; eexists; eexists; split; [exact Er|reflexivity] ]
  end.

(** X4. Every request ends in one of five ways, whatever the platform and
    the view engine: a file of the static directory; a page of the Route
    Table, rendered and sent by [res.send] with status 200; the not-found
    page with status 404; after a failure of a collaborator (an undecodable
    path parameter, an error of [express.static], a view that does not
    render), one log entry for that error and the error page with status 500
    and the error's own code, or [unknown_error]; or, when the error page
    itself does not render, Express's final handler with that second
    error. *)
Theorem serve_outcomes (pf : Platform) (en : Engine) (req : Request) :
  ServeOutcome pf en req (serve pf en req).
Proof.
  unfold serve, app. rewrite serve_static_cases.
  destruct (mount_matches "/static" (req_path req)) eqn:Hs.
  1: destruct (express_static pf req) as [st data| |cls props] eqn:Es.
  1: { apply StaticFile; assumption. }
  2: { fails_here. right. left. exists cls, props. split; [exact Es|reflexivity]. }
  all: repeat
    (match goal with
     | |- ServeOutcome ?pf ?en ?req
            (serve_stack ?pf ?en (Get ?route ?h :: ?rest) None [] ?req) =>
         let E := fresh "E" in
         let raw := fresh "raw" in
         let ps := fresh "ps" in
         destruct (serve_get_cases pf en req route h rest [])
           as [E|[[raw E]|[ps E]]];
         rewrite E; clear E;
         [ | unfold decode_failure; fails_here; left; exists raw; reflexivity
           | unfold handle_simple, handle_home, handle_saymyname,
               handle_saymyname2, handle_partials_example, handle_list,
               handle_products, handle_products_partials, handle_profile,
               handle_unless_example, res_render;
             renders_here
               ltac:(fun Er => eapply Page; [|exact Er]; simpl; tauto) ]
     end).
  all: rewrite serve_use_step; unfold not_found, res_status_render;
    renders_here ltac:(fun Er => apply NotFoundPage; exact Er).
Qed.

(** A view that does not render: the request ends in the error page, with
    the code of the engine's error.  When the error page is the view that
    does not render, the request is left to Express's final handler. *)
Lemma missing_view_answered_500 :
  serve platform_with_stylesheet (engine_failing_at "list" "ENOENT")
        (request GET "/list" "" [] "")
  = Replied [ConsoleErrorStack (JObject (ClsOther "Error")
                                        [("code", JStr "ENOENT")])]
            (Html 500 "error" true) /\
  serve platform_rejecting_escape (engine_failing_at "error" "ENOENT")
        (request GET "/saymyname/%E0/Doe" "" [] "")
  = LeftToExpress [ConsoleErrorStack (decode_failure "%E0")]
                  (Some (JObject (ClsOther "Error") [("code", JStr "ENOENT")])).
Proof. repeat split. Qed.

(** ** The port and the leading integer of the argument *)

Lemma strip_hex_prefix_cases (s : string) :
  strip_hex_prefix s = (10%Z, s) \/ exists r, strip_hex_prefix s = (16%Z, r).
Proof.
  destruct s as [|c [|x r]]; try (left; reflexivity).
  - ascii_cases c; left; reflexivity.
  - ascii_cases c; try (left; reflexivity).
    ascii_cases x; try (left; reflexivity); right; exists r; reflexivity.
Qed.

Lemma span_decimal_run (s : string) :
  fst (Lex.span_digits 10 s) = digit_values (leading_run is_decimal_digit s).
Proof.
  induction s as [|c s IH]; [reflexivity|]. simpl.
  destruct (is_decimal_digit c) eqn:E.
  - rewrite (digit_radix_10 c E).
    destruct (Lex.span_digits 10 s) as [ds rest]. simpl in *.
    now rewrite IH.
  - now rewrite (non_digit_radix_10 c E).
Qed.

Lemma span_hex_run (s : string) :
  fst (Lex.span_digits 16 s) = hex_digit_values (leading_run is_hex_digit s).
Proof.
  induction s as [|c s IH]; [reflexivity|]. simpl.
  destruct (is_hex_digit c) eqn:E.
  - rewrite (hex_digit_radix_16 c E).
    destruct (Lex.span_digits 16 s) as [ds rest]. simpl in *.
    now rewrite IH.
  - now rewrite (non_hex_digit_radix_16 c E).
Qed.

Lemma leading_run_passes (test : ascii -> bool) (s : string) (c : ascii) (r : string) :
  leading_run test s = String c r ->
  test c = true /\ exists s', r = leading_run test s'.
Proof.
  destruct s as [|x s]; [discriminate|]. simpl.
  destruct (test x) eqn:E; [|discriminate].
  intros H. injection H as <- <-. split; [exact E|]. exists s. reflexivity.
Qed.

Lemma fold_digits_zero (R : Z) (ds : list Z) :
  Forall (fun d => d = 0%Z) ds -> Lex.digits_value R ds = 0%Z.
Proof.
  unfold Lex.digits_value. induction 1 as [|d ds -> _ IH]; [reflexivity|].
  simpl. exact IH.
Qed.

Lemma fold_digits_pos (R : Z) (ds : list Z) (acc : Z) :
  (0 < R)%Z -> Forall (fun d => 0 <= d)%Z ds ->
  (0 < acc)%Z \/ ((0 <= acc)%Z /\ Exists (fun d => 0 < d)%Z ds) ->
  (0 < fold_left (fun a d => a * R + d) ds acc)%Z.
Proof.
  intros HR Hd. revert acc.
  induction Hd as [|d ds Hd0 _ IH]; intros acc H.
  - destruct H as [H|[_ H]]; [exact H|inversion H].
  - simpl. apply IH. destruct H as [H|[Ha H]].
    + left. nia.
    + inversion H as [? ? Hp|? ? Hp]; subst.
      * left. nia.
      * right. split; [nia|exact Hp].
Qed.

Lemma decimal_run_value (s : string) :
  (Lex.digits_value 10 (digit_values (leading_run is_decimal_digit s)) =? 0)%Z
  = negb (has_nonzero_digit (leading_run is_decimal_digit s)).
Proof.
  destruct (has_nonzero_digit (leading_run is_decimal_digit s)) eqn:E; simpl.
  - apply Z.eqb_neq.
    enough (0 < Lex.digits_value 10
                  (digit_values (leading_run is_decimal_digit s)))%Z by lia.
    apply fold_digits_pos; [lia| |right; split; [lia|]].
    + clear E. induction (leading_run is_decimal_digit s); simpl;
        constructor; [lia|assumption].
    + revert E. induction s as [|c s IH]; [discriminate|]. simpl.
      destruct (is_decimal_digit c) eqn:Hc; [|discriminate]. simpl.
      destruct (Ascii.eqb c "0") eqn:E0; simpl.
      * intros E. apply Exists_cons_tl, IH, E.
      * intros _. apply Exists_cons_hd.
        revert Hc E0. ascii_cases c; intros Hc E0; try discriminate Hc;
          try discriminate E0; reflexivity.
  - apply Z.eqb_eq, fold_digits_zero.
    revert E. induction s as [|c s IH]; [constructor|]. simpl.
    destruct (is_decimal_digit c); [|constructor]. simpl.
    intros E. apply Bool.orb_false_iff in E. destruct E as [E0 E].
    apply Bool.negb_false_iff, Ascii.eqb_eq in E0. subst c.
    constructor; [reflexivity|apply IH, E].
Qed.

Lemma hex_run_value (s : string) :
  (Lex.digits_value 16 (hex_digit_values (leading_run is_hex_digit s)) =? 0)%Z
  = negb (has_nonzero_digit (leading_run is_hex_digit s)).
Proof.
  destruct (has_nonzero_digit (leading_run is_hex_digit s)) eqn:E; simpl.
  - apply Z.eqb_neq.
    enough (0 < Lex.digits_value 16
                  (hex_digit_values (leading_run is_hex_digit s)))%Z by lia.
    apply fold_digits_pos; [lia| |right; split; [lia|]].
    + clear E. induction s as [|c s IH]; [constructor|]. simpl.
      destruct (is_hex_digit c); [|constructor]. simpl.
      constructor; [|exact IH].
      unfold hex_digit_value.
      repeat match goal with |- context [if ?b then _ else _] => destruct b end;
        lia.
    + revert E. induction s as [|c s IH]; [discriminate|]. simpl.
      destruct (is_hex_digit c) eqn:Hc; [|discriminate]. simpl.
      destruct (Ascii.eqb c "0") eqn:E0; simpl.
      * intros E. apply Exists_cons_tl, IH, E.
      * intros _. apply Exists_cons_hd.
        revert Hc E0. ascii_cases c; intros Hc E0; try discriminate Hc;
          try discriminate E0; reflexivity.
  - apply Z.eqb_eq, fold_digits_zero.
    revert E. induction s as [|c s IH]; [constructor|]. simpl.
    destruct (is_hex_digit c); [|constructor]. simpl.
    intros E. apply Bool.orb_false_iff in E. destruct E as [E0 E].
    apply Bool.negb_false_iff, Ascii.eqb_eq in E0. subst c.
    constructor; [reflexivity|apply IH, E].
Qed.

Lemma run_empty_no_digit (run : string) :
  run = EmptyString -> has_nonzero_digit run = false.
Proof. intros ->. reflexivity. Qed.

(** What [parseInt] yields is NaN or a zero exactly when the argument does
    not begin with an integer of nonzero value. *)
Lemma parseInt_falsy_iff (s : string) :
  (Num.is_nan (parseInt s) || Num.is_zero (parseInt s))%bool
  = negb (leading_nonzero_integer s).
Proof.
  unfold parseInt, leading_nonzero_integer.
  destruct (Lex.split_sign (Lex.trim_start s)) as [neg s1]. cbn [snd].
  destruct (strip_hex_prefix_cases s1) as [E|[r E]]; rewrite E.
  - unfold digit_test. change (10 =? 16)%Z with false. cbv iota.
    rewrite span_decimal_run.
    pose proof (decimal_run_value s1) as Hv.
    destruct (digit_values (leading_run is_decimal_digit s1)) as [|d ds] eqn:Ed.
    + destruct (leading_run is_decimal_digit s1); [reflexivity|discriminate Ed].
    + cbv zeta. rewrite Hv.
      destruct (has_nonzero_digit (leading_run is_decimal_digit s1)) eqn:Hn;
        simpl negb; cbv iota; [|reflexivity].
      simpl negb in Hv. apply Z.eqb_neq in Hv.
      apply Bool.negb_true_iff. apply (of_Z_truthy _).
      destruct neg; lia.
  - unfold digit_test. change (16 =? 16)%Z with true. cbv iota.
    rewrite span_hex_run.
    pose proof (hex_run_value r) as Hv.
    destruct (hex_digit_values (leading_run is_hex_digit r)) as [|d ds] eqn:Ed.
    + destruct (leading_run is_hex_digit r); [reflexivity|discriminate Ed].
    + cbv zeta. rewrite Hv.
      destruct (has_nonzero_digit (leading_run is_hex_digit r)) eqn:Hn;
        simpl negb; cbv iota; [|reflexivity].
      simpl negb in Hv. apply Z.eqb_neq in Hv.
      apply Bool.negb_true_iff. apply (of_Z_truthy _).
      destruct neg; lia.
Qed.

(** C5, amended. The port is selected by the first positional argument
    alone.  It is 3000 whenever that argument is absent, and whenever it
    does not begin, after leading white space, an optional sign and an
    optional [0x], with an integer of nonzero value; this covers every
    non-numeric argument but those that begin with such an integer, as
    ["80abc"] does, and for these the port is that integer. *)
Theorem port_default_unless_leading_integer (argv argv' : list string) :
  argument argv' = argument argv ->
  port argv' = port argv /\
  (argument argv = None -> port argv = default_port) /\
  (forall s, argument argv = Some s ->
             leading_nonzero_integer s = false ->
             port argv = default_port) /\
  (forall s, argument argv = Some s ->
             leading_nonzero_integer s = true ->
             port argv = JNum (parseInt s) /\
             Num.is_nan (parseInt s) = false /\
             Num.is_zero (parseInt s) = false).
Proof.
  intros E. split; [unfold port; rewrite E; reflexivity|].
  split; [intros H; unfold port; rewrite H; reflexivity|].
  split; intros s Ha Hl; rewrite port_unfold, Ha; cbn [parseInt_argument];
    cbv zeta; pose proof (parseInt_falsy_iff s) as Hf; rewrite Hl in Hf;
    simpl negb in Hf; rewrite Hf.
  - reflexivity.
  - apply Bool.orb_false_iff in Hf. split; [reflexivity|exact Hf].
Qed.

Lemma port_default_unless_leading_integer_witness :
  port ["node"; "server.js"; "0abc"] = default_port /\
  port ["node"; "server.js"; "0x"] = default_port /\
  port ["node"; "server.js"; "-0x"] = default_port /\
  port ["node"; "server.js"; "http"] = default_port /\
  port ["node"; "server.js"] = default_port /\
  port ["node"; "server.js"; "80abc"] = JNum (parseInt "80abc").
Proof.
  pose (at_argument := fun arg : string =>
          port_default_unless_leading_integer
            ["node"; "server.js"; arg] ["node"; "server.js"; arg] eq_refl).
  split; [|split; [|split; [|split; [|split]]]].
  - exact (proj1 (proj2 (proj2 (at_argument "0abc"))) "0abc" eq_refl eq_refl).
  - exact (proj1 (proj2 (proj2 (at_argument "0x"))) "0x" eq_refl eq_refl).
  - exact (proj1 (proj2 (proj2 (at_argument "-0x"))) "-0x" eq_refl eq_refl).
  - exact (proj1 (proj2 (proj2 (at_argument "http"))) "http" eq_refl eq_refl).
  - exact (proj1 (proj2 (port_default_unless_leading_integer
                           ["node"; "server.js"] ["node"; "server.js"] eq_refl))
                 eq_refl).
  - exact (proj1 (proj2 (proj2 (proj2 (at_argument "80abc"))) "80abc"
                        eq_refl eq_refl)).
Defined.
